(** * PhysicsRigidBody: heightfield sampling, declarative creation, forces

    A shallow embedding of [gameplay/src/PhysicsRigidBody.cpp].

    Conventions of the embedding.
    - A C++ [float] is an exact rational ([Q]).  Every binary32 value is a
      rational, comparisons, [modf] and the conversion to [unsigned int]
      are exact on them; the rounding of [+], [*] and [/] is not modelled,
      the conversion of an [unsigned int] to [float] is taken without
      rounding (as it is up to [2^24]), and [x / 0] is [0] here (an
      infinity or a NaN in C++).  Properties that depend on one of these
      carry the range in which the code agrees as a hypothesis.
    - An [unsigned int] is a [Z] in [[0, 2^32)], arithmetic wraps.
    - Effects are a trace of events (warnings, array reads, registrations)
      together with a result; a result is either a value or a fault
      (undefined behaviour of the C++ program: a read outside an array, a
      dereferenced null pointer, a conversion whose value does not fit). *)

From Stdlib Require Import ZArith QArith Qround Lia Bool Lqa.
From stdpp Require Import base option list strings.

Local Open Scope Z_scope.

(** ** Machine numbers *)

Module Num.

Definition UINT_MODULUS : Z := 2 ^ 32.

(** Wrap-around of [unsigned int] arithmetic. *)
Definition uint (z : Z) : Z := z mod UINT_MODULUS.
Definition uadd (a b : Z) : Z := uint (a + b).
Definition usub (a b : Z) : Z := uint (a - b).
Definition umul (a b : Z) : Z := uint (a * b).

(** Truncation toward zero, the integral part of a [float]. *)
Definition Qtrunc (q : Q) : Z := Z.quot (Qnum q) (Zpos (Qden q)).

(** [modf(x, &tmp)]: the fractional part, with the sign of [x]. *)
Definition modf (x : Q) : Q := (x - inject_Z (Qtrunc x))%Q.

(** [(float) u] for an [unsigned int] (or a byte) [u]. *)
Definition to_float (u : Z) : Q := inject_Z u.

Definition Qltb (a b : Q) : bool := negb (Qle_bool b a).
Definition Qgtb (a b : Q) : bool := Qltb b a.

End Num.
Export Num.

(** ** Effects *)

Inductive fault : Set :=
| OutOfBounds        (* an array read or write outside the array *)
| NullDereference    (* a member access through a null pointer *)
| BadConversion      (* float to unsigned int, value not representable *)
| AssertionFailed.   (* assert(...) on a false condition *)

Inductive result (A : Type) : Type :=
| Ok (a : A)
| Fault (f : fault).
Arguments Ok {A} a.
Arguments Fault {A} f.

Inductive event : Type :=
| Warn (msg : string)          (* WARN / WARN_VARG, by its format string *)
| Read (i : Z)                 (* data[i] read by calculateHeight *)
| AddCollisionObject           (* PhysicsController::addCollisionObject(this) *)
| AddListener.                 (* _node->addListener(this) *)

Definition M (A : Type) : Type := (list event * result A)%type.

Definition ret {A} (a : A) : M A := ([], Ok a).
Definition fail {A} (f : fault) : M A := ([], Fault f).
Definition emit (e : event) : M unit := ([e], Ok tt).

Definition bind {A B} (m : M A) (k : A -> M B) : M B :=
  match m with
  | (t, Ok a) => let '(t', r) := k a in (t ++ t', r)
  | (t, Fault f) => (t, Fault f)
  end.

Declare Scope M_scope.
Delimit Scope M_scope with M.
Notation "x <- c1 ;; c2" := (bind c1 (fun x => c2))
  (at level 100, c1 at next level, right associativity) : M_scope.
Notation "c1 ;;; c2" := (bind c1 (fun _ => c2))
  (at level 100, right associativity) : M_scope.
Local Open Scope M_scope.

Definition outcome {A} (m : M A) : result A := snd m.

(** [*p] for a pointer that may be null. *)
Definition deref {A} (p : option A) : M A :=
  match p with
  | Some a => ret a
  | None => fail NullDereference
  end.

(** [unsigned int u = f;] truncates; undefined when the integral part
    does not fit. *)
Definition float_to_uint (f : Q) : M Z :=
  let t := Qtrunc f in
  if (0 <=? t) && (t <? UINT_MODULUS) then ret t else fail BadConversion.

(** [data[i]] for a read; a read outside the array is a fault. *)
Definition fetch {A} (data : list A) (i : Z) : M A :=
  match (if 0 <=? i then data !! Z.to_nat i else None) with
  | Some v => ret v
  | None => fail OutOfBounds
  end.

(** The same, with the index logged. *)
Definition load {A} (data : list A) (i : Z) : M A :=
  emit (Read i) ;;; fetch data i.

(** [data[i] = v]. *)
Definition store {A} (data : list A) (i : Z) (v : A) : M (list A) :=
  if (0 <=? i) && (i <? Z.of_nat (length data))
  then ret (<[Z.to_nat i := v]> data)
  else fail OutOfBounds.

(** [for (unsigned int i = 0; i < n; i++) body], threading the state. *)
Fixpoint for_loop_from {S} (n : nat) (i : Z) (body : Z -> S -> M S) (s : S) : M S :=
  match n with
  | O => ret s
  | Datatypes.S n' => s' <- body i s ;; for_loop_from n' (i + 1) body s'
  end.

Definition for_loop {S} (n : Z) (body : Z -> S -> M S) (s : S) : M S :=
  for_loop_from (Z.to_nat n) 0 body s.

(** ** The bilinear sampler, [calculateHeight] *)

(** [x + y * width] in [unsigned int] arithmetic. *)
Definition cell (x y width : Z) : Z := uadd x (umul y width).

Definition calculateHeight (data : list Q) (width height : Z) (x y : Q) : M Q :=
  x1 <- float_to_uint x ;;
  y1 <- float_to_uint y ;;
  let x2 := uadd x1 1 in
  let y2 := uadd y1 1 in
  let xFactor := modf x in
  let yFactor := modf y in
  let xFactorI := (1 - xFactor)%Q in
  let yFactorI := (1 - yFactor)%Q in
  if (width <=? x2) && (height <=? y2) then
    load data (cell x1 y1 width)
  else if width <=? x2 then
    a <- load data (cell x1 y1 width) ;;
    b <- load data (cell x1 y2 width) ;;
    ret (a * yFactorI + b * yFactor)%Q
  else if height <=? y2 then
    a <- load data (cell x1 y1 width) ;;
    b <- load data (cell x2 y1 width) ;;
    ret (a * xFactorI + b * xFactor)%Q
  else
    a <- load data (cell x1 y1 width) ;;
    b <- load data (cell x1 y2 width) ;;
    c <- load data (cell x2 y2 width) ;;
    d <- load data (cell x2 y1 width) ;;
    ret (a * xFactorI * yFactorI + b * xFactorI * yFactor +
         c * xFactor * yFactor + d * xFactor * yFactorI)%Q.

(** ** Collaborators outside this file

    [Vector3], [Matrix], the Bullet library, [PhysicsController], [Image]
    and [Properties] are not part of [PhysicsRigidBody.cpp].  A [Vector3]
    is a triple of floats; what the file calls on the others is an
    interface, and every theorem below holds for each implementation. *)

Record Vector3 : Type := mkVector3 { vx : Q; vy : Q; vz : Q }.

(** The methods of [Vector3] that the file calls, [Matrix], and the
    constant [MATH_EPSILON] of Base.h. *)
Class MathAPI : Type := {
  (* v.lengthSquared() *)
  lengthSquared : Vector3 -> Q;
  (* the value of v after v.negate() *)
  negate : Vector3 -> Vector3;
  Matrix : Type;
  (* new Matrix() *)
  Matrix_new : Matrix;
  (* the value of *dst after m.invert(dst) *)
  Matrix_invert : Matrix -> Matrix -> Matrix;
  (* m * v *)
  Matrix_mul : Matrix -> Vector3 -> Vector3;
  (* m.getScale(&s) *)
  Matrix_getScale : Matrix -> Vector3;
  MATH_EPSILON : Q
}.

Record BoundingBox : Type := mkBoundingBox { box_min : Vector3; box_max : Vector3 }.
Record BoundingSphere : Type := mkBoundingSphere { center : Vector3; radius : Q }.

Inductive PrimitiveType : Set :=
| TRIANGLES | TRIANGLE_STRIP | LINES | LINE_STRIP | POINTS.

Record Mesh : Type := mkMesh {
  getBoundingBox : BoundingBox;
  getBoundingSphere : BoundingSphere;
  getPrimitiveType : PrimitiveType
}.

(** A scene node: its world matrix and [getModel()->getMesh()], null when
    the node has no model or the model no mesh. *)
Record Node `{MathAPI} : Type := mkNode {
  getWorldMatrix : Matrix;
  getMesh : option Mesh
}.
Arguments mkNode {_} _ _.

Inductive ImageFormat : Set := RGB | RGBA | OTHER_FORMAT.

(** A decoded image: [getData()] is the raw byte buffer. *)
Record Image : Type := mkImage {
  getFormat : ImageFormat;
  imageWidth : Z;
  imageHeight : Z;
  getData : list Z
}.

(** The shape selector: [SHAPE_BOX], [SHAPE_SPHERE] and [SHAPE_NONE] of the
    header, and the three internal values defined on top of [SHAPE_NONE]. *)
Inductive ShapeType : Set :=
| SHAPE_BOX | SHAPE_SPHERE | SHAPE_NONE
| SHAPE_MESH | SHAPE_HEIGHTFIELD | SHAPE_CAPSULE.

(** Bullet's shape tags, [btCollisionShape::getShapeType()]. *)
Inductive BroadphaseNativeTypes : Set :=
| BOX_SHAPE_PROXYTYPE
| SPHERE_SHAPE_PROXYTYPE
| CAPSULE_SHAPE_PROXYTYPE
| TRIANGLE_MESH_SHAPE_PROXYTYPE
| TERRAIN_SHAPE_PROXYTYPE
| OTHER_SHAPE_PROXYTYPE (tag : Z).

#[global] Instance ShapeType_eq_dec : EqDecision ShapeType.
Proof. solve_decision. Defined.
#[global] Instance BroadphaseNativeTypes_eq_dec : EqDecision BroadphaseNativeTypes.
Proof. solve_decision. Defined.

(** Bullet and the [PhysicsController] factory. *)
Class PhysicsAPI `{MathAPI} : Type := {
  btCollisionShape : Type;
  btRigidBody : Type;
  getShapeType : btCollisionShape -> BroadphaseNativeTypes;
  calculateLocalInertia : btCollisionShape -> Q -> Vector3;
  (* bullet_new<btRigidBody>(rbInfo), with rbInfo's fields: mass, the
     motion state (node, center of mass offset), shape, local inertia,
     friction, restitution, linear and angular damping *)
  bullet_new : Q -> Node -> option Vector3 -> option btCollisionShape ->
               Vector3 -> Q -> Q -> Q -> Q -> btRigidBody;
  activate : btRigidBody -> btRigidBody;
  bt_applyForce : btRigidBody -> Vector3 -> Vector3 -> btRigidBody;
  bt_applyCentralForce : btRigidBody -> Vector3 -> btRigidBody;
  bt_applyImpulse : btRigidBody -> Vector3 -> Vector3 -> btRigidBody;
  bt_applyCentralImpulse : btRigidBody -> Vector3 -> btRigidBody;
  bt_applyTorque : btRigidBody -> Vector3 -> btRigidBody;
  bt_applyTorqueImpulse : btRigidBody -> Vector3 -> btRigidBody;
  bt_getLinearVelocity : btRigidBody -> Vector3;
  (* the inline setters of PhysicsRigidBody.inl, on the Bullet body *)
  bt_setKinematic : btRigidBody -> bool -> btRigidBody;
  bt_setGravity : btRigidBody -> Vector3 -> btRigidBody;
  bt_setAnisotropicFriction : btRigidBody -> Vector3 -> btRigidBody;
  createBox : Vector3 -> Vector3 -> Vector3 -> btCollisionShape;
  createSphere : Q -> Vector3 -> btCollisionShape;
  createMesh : Node -> Vector3 -> btCollisionShape;
  createCapsule : Q -> Q -> btCollisionShape;
  createHeightfield : Z -> Z -> list Q -> Q -> Q -> btCollisionShape
}.

(** [Image::create] and the value parsers of [Properties]. *)
Class LoaderAPI : Type := {
  Image_create : string -> option Image;
  getFloat : string -> Q;
  getBool : string -> bool;
  getVector3 : string -> Vector3
}.

(** A [Properties] block: its namespace and its properties in file order,
    each a name and its unparsed value. *)
Record Properties : Type := mkProperties {
  getNamespace : string;
  properties_list : list (string * string)
}.

(** ** The rigid body *)

Section RigidBody.
Context `{PA : PhysicsAPI}.

Record PhysicsRigidBody : Type := mkPhysicsRigidBody {
  _shape : option btCollisionShape;
  _body : btRigidBody;
  _node : Node;
  _angularVelocity : option Vector3;
  _anisotropicFriction : option Vector3;
  _gravity : option Vector3;
  _linearVelocity : option Vector3;
  _heightfieldData : option (list Q);
  _inverse : option Matrix;
  _inverseIsDirty : bool;
  (* set by the heightfield constructor only *)
  _width : Z;
  _height : Z
}.

Definition set_body (b : PhysicsRigidBody) (rb : btRigidBody) : PhysicsRigidBody :=
  mkPhysicsRigidBody (_shape b) rb (_node b) (_angularVelocity b)
    (_anisotropicFriction b) (_gravity b) (_linearVelocity b)
    (_heightfieldData b) (_inverse b) (_inverseIsDirty b) (_width b) (_height b).

Definition set_inverse (b : PhysicsRigidBody) (inv : option Matrix) (dirty : bool)
  : PhysicsRigidBody :=
  mkPhysicsRigidBody (_shape b) (_body b) (_node b) (_angularVelocity b)
    (_anisotropicFriction b) (_gravity b) (_linearVelocity b)
    (_heightfieldData b) inv dirty (_width b) (_height b).

(** *** Forces *)





(** *** Height queries *)

Definition WARN_NOT_HEIGHTFIELD : string :=
  "Attempting to get the height of a non-heightfield rigid body.".
Definition WARN_OUT_OF_RANGE : string :=
  "Attempting to get height at point '%f, %f', which is outside the range of the heightfield with width %d and height %d.".

(** The lazily refreshed inverse of the node's world matrix. *)
Definition refreshInverse (b : PhysicsRigidBody) : PhysicsRigidBody :=
  if _inverseIsDirty b then
    let dst := match _inverse b with Some m => m | None => Matrix_new end in
    set_inverse b (Some (Matrix_invert (getWorldMatrix (_node b)) dst)) false
  else b.

(** [(v + 0.5f * (n - 1)) * n / (n - 1)], [n] an [unsigned int]. *)
Definition rescale (v : Q) (n : Z) : Q :=
  ((v + (1 # 2) * to_float (usub n 1)) * to_float n / to_float (usub n 1))%Q.

(** The query point in grid coordinates, from the cached inverse. *)
Definition gridCoordinates (b : PhysicsRigidBody) (inv : Matrix) (x y : Q) : Q * Q :=
  let v := Matrix_mul inv (mkVector3 x 0 y) in
  (rescale (vx v) (_width b), rescale (vz v) (_height b)).

Definition outsideGrid (b : PhysicsRigidBody) (xy : Q * Q) : bool :=
  Qltb (fst xy) 0 || Qgtb (fst xy) (to_float (_width b)) ||
  Qltb (snd xy) 0 || Qgtb (snd xy) (to_float (_height b)).

Definition getHeight (b : PhysicsRigidBody) (x y : Q) : M (PhysicsRigidBody * Q) :=
  shape <- deref (_shape b) ;;
  if negb (bool_decide (getShapeType shape = TERRAIN_SHAPE_PROXYTYPE)) then
    emit (Warn WARN_NOT_HEIGHTFIELD) ;;;
    ret (b, 0%Q)
  else
    let b' := refreshInverse b in
    inv <- deref (_inverse b') ;;
    let xy := gridCoordinates b' inv x y in
    if outsideGrid b' xy then
      emit (Warn WARN_OUT_OF_RANGE) ;;;
      ret (b', 0%Q)
    else
      data <- deref (_heightfieldData b') ;;
      h <- calculateHeight data (_width b') (_height b') (fst xy) (snd xy) ;;
      ret (b', h).

Definition supportsConstraints (b : PhysicsRigidBody) : M bool :=
  shape <- deref (_shape b) ;;
  ret (negb (bool_decide (getShapeType shape = TRIANGLE_MESH_SHAPE_PROXYTYPE)) &&
       negb (bool_decide (getShapeType shape = TERRAIN_SHAPE_PROXYTYPE))).

Definition transformChanged (b : PhysicsRigidBody) : PhysicsRigidBody :=
  set_inverse b (_inverse b) true.

(** *** Construction *)

Definition zeroVector : Vector3 := mkVector3 0 0 0.

Definition createRigidBodyInternal (shape : option btCollisionShape) (mass : Q)
    (node : Node) (friction restitution linearDamping angularDamping : Q)
    (centerOfMassOffset : option Vector3) : M btRigidBody :=
  localInertia <-
    (if negb (Qeq_bool mass 0) then
       s <- deref shape ;;
       ret (if negb (bool_decide (getShapeType s = TRIANGLE_MESH_SHAPE_PROXYTYPE))
            then calculateLocalInertia s mass else zeroVector)
     else ret zeroVector) ;;
  ret (bullet_new mass node centerOfMassOffset shape localInertia
         friction restitution linearDamping angularDamping).

(** The center of mass offset of the box, sphere, mesh and capsule
    constructors: the negated, scaled center of the bounding sphere. *)
Definition centerOffset (mesh : Mesh) (scale : Vector3) : Vector3 :=
  let c := center (getBoundingSphere mesh) in
  negate (mkVector3 (vx c * vx scale) (vy c * vy scale) (vz c * vz scale)).

Definition newBody (shape : option btCollisionShape) (rb : btRigidBody) (node : Node)
  : PhysicsRigidBody :=
  mkPhysicsRigidBody shape rb node None None None None None None true 0 0.

(** [PhysicsRigidBody(Node*, ShapeType, ...)]. *)
Definition PhysicsRigidBody_fromShape (node : Node) (type : ShapeType)
    (mass friction restitution linearDamping angularDamping : Q) : M PhysicsRigidBody :=
  let scale := Matrix_getScale (getWorldMatrix node) in
  shape <-
    match type with
    | SHAPE_BOX =>
        mesh <- deref (getMesh node) ;;
        let box := getBoundingBox mesh in
        ret (Some (createBox (box_min box) (box_max box) scale))
    | SHAPE_SPHERE =>
        mesh <- deref (getMesh node) ;;
        ret (Some (createSphere (radius (getBoundingSphere mesh)) scale))
    | SHAPE_MESH => ret (Some (createMesh node scale))
    | _ => ret None
    end ;;
  mesh <- deref (getMesh node) ;;
  let c := centerOffset mesh scale in
  rb <- (if Qgtb (lengthSquared c) MATH_EPSILON && negb (bool_decide (type = SHAPE_MESH))
         then createRigidBodyInternal shape mass node friction restitution
                linearDamping angularDamping (Some c)
         else createRigidBodyInternal shape mass node friction restitution
                linearDamping angularDamping None) ;;
  emit AddCollisionObject ;;;
  ret (newBody shape rb node).

(** The height of pixel [(x, y)] as the first loop nest computes it. *)
Definition pixelHeight (image : Image) (pixelSize : Z) (minHeight maxHeight : Q)
    (x y : Z) : M Q :=
  let p := umul (uadd x (umul y (imageHeight image))) pixelSize in
  r <- fetch (getData image) (uadd p 0) ;;
  g <- fetch (getData image) (uadd p 1) ;;
  b <- fetch (getData image) (uadd p 2) ;;
  ret (((to_float r + to_float g + to_float b) / 768) * (maxHeight - minHeight)
       + minHeight)%Q.

(** "Calculate the heights for each pixel": the array [data]. *)
Definition pixelHeights (image : Image) (pixelSize : Z) (minHeight maxHeight : Q)
  : M (list Q) :=
  let W := imageWidth image in
  let H := imageHeight image in
  for_loop W (fun x data =>
    for_loop H (fun y data =>
      h <- pixelHeight image pixelSize minHeight maxHeight x y ;;
      store data (uadd x (umul y W)) h) data)
    (replicate (Z.to_nat (umul W H)) 0%Q).

(** "Generate the heightmap data needed for physics": [_heightfieldData].
    The loops run [sizeHeight + 1] and [sizeWidth + 1] times ([row <=
    sizeHeight], [col <= sizeWidth]); the loop variables [z] and [x] are
    [unsigned int], advanced by [z += 1.0f] and [x += 1.0f]: they equal
    [row] and [col] as long as these stay below [2^24], the range in
    which this definition follows the code. *)
Definition heightfieldGrid (data : list Q) (W H sizeWidth sizeHeight : Z) : M (list Q) :=
  let width := uadd sizeWidth 1 in
  let height := uadd sizeHeight 1 in
  let widthImageFactor := (to_float (usub W 1) / to_float sizeWidth)%Q in
  let heightImageFactor := (to_float (usub H 1) / to_float sizeHeight)%Q in
  for_loop (sizeHeight + 1) (fun row grid =>
    for_loop (sizeWidth + 1) (fun col grid =>
      let heightIndex := uadd (umul row width) col in
      h <- calculateHeight data W H (to_float col * widthImageFactor)
             (to_float (usub sizeHeight row) * heightImageFactor) ;;
      store grid heightIndex h) grid)
    (replicate (Z.to_nat (umul width height)) 0%Q).

(** [PhysicsRigidBody(Node*, Image*, ...)]. *)
Definition PhysicsRigidBody_fromImage (node : Node) (image : Image)
    (mass friction restitution linearDamping angularDamping : Q) : M PhysicsRigidBody :=
  mesh <- deref (getMesh node) ;;
  let box := getBoundingBox mesh in
  let width := (vx (box_max box) - vx (box_min box))%Q in
  let minHeight := vy (box_min box) in
  let maxHeight := vy (box_max box) in
  let length := (vz (box_max box) - vz (box_min box))%Q in
  let pixelSize := match getFormat image with RGB => 3 | RGBA => 4 | OTHER_FORMAT => 0 end in
  data <- pixelHeights image pixelSize minHeight maxHeight ;;
  sizeWidth <- float_to_uint width ;;
  sizeHeight <- float_to_uint length ;;
  let width' := uadd sizeWidth 1 in
  let height' := uadd sizeHeight 1 in
  grid <- heightfieldGrid data (imageWidth image) (imageHeight image) sizeWidth sizeHeight ;;
  let shape := createHeightfield width' height' grid minHeight maxHeight in
  let s := Matrix_getScale (getWorldMatrix node) in
  let c := mkVector3 0 (- (maxHeight - (1 # 2) * (maxHeight - minHeight)) / vy s) 0 in
  rb <- (if Qgtb (lengthSquared c) MATH_EPSILON
         then createRigidBodyInternal (Some shape) mass node friction restitution
                linearDamping angularDamping (Some c)
         else createRigidBodyInternal (Some shape) mass node friction restitution
                linearDamping angularDamping None) ;;
  emit AddCollisionObject ;;;
  emit AddListener ;;;
  ret (mkPhysicsRigidBody (Some shape) rb node None None None None (Some grid)
         None true width' height').

(** [PhysicsRigidBody(Node*, float radius, float height, ...)]. *)
Definition PhysicsRigidBody_fromCapsule (node : Node) (radius height : Q)
    (mass friction restitution linearDamping angularDamping : Q) : M PhysicsRigidBody :=
  let scale := Matrix_getScale (getWorldMatrix node) in
  let shape := Some (createCapsule radius height) in
  mesh <- deref (getMesh node) ;;
  let c := centerOffset mesh scale in
  rb <- (if Qgtb (lengthSquared c) MATH_EPSILON
         then createRigidBodyInternal shape mass node friction restitution
                linearDamping angularDamping (Some c)
         else createRigidBodyInternal shape mass node friction restitution
                linearDamping angularDamping None) ;;
  emit AddCollisionObject ;;;
  ret (newBody shape rb node).

(** *** Declarative construction, [create] from a [Properties] block *)

(** The local variables that the property loop fills in. *)
Record Settings : Type := mkSettings {
  s_type : ShapeType;
  s_mass : Q;
  s_friction : Q;
  s_restitution : Q;
  s_linearDamping : Q;
  s_angularDamping : Q;
  s_kinematic : bool;
  s_gravity : option Vector3;
  s_anisotropicFriction : option Vector3;
  s_imagePath : option string;
  s_radius : Q;
  s_height : Q
}.

Definition with_type (s : Settings) (v : ShapeType) : Settings :=
  mkSettings v (s_mass s) (s_friction s) (s_restitution s) (s_linearDamping s)
    (s_angularDamping s) (s_kinematic s) (s_gravity s) (s_anisotropicFriction s)
    (s_imagePath s) (s_radius s) (s_height s).
Definition with_mass (s : Settings) (v : Q) : Settings :=
  mkSettings (s_type s) v (s_friction s) (s_restitution s) (s_linearDamping s)
    (s_angularDamping s) (s_kinematic s) (s_gravity s) (s_anisotropicFriction s)
    (s_imagePath s) (s_radius s) (s_height s).
Definition with_friction (s : Settings) (v : Q) : Settings :=
  mkSettings (s_type s) (s_mass s) v (s_restitution s) (s_linearDamping s)
    (s_angularDamping s) (s_kinematic s) (s_gravity s) (s_anisotropicFriction s)
    (s_imagePath s) (s_radius s) (s_height s).
Definition with_restitution (s : Settings) (v : Q) : Settings :=
  mkSettings (s_type s) (s_mass s) (s_friction s) v (s_linearDamping s)
    (s_angularDamping s) (s_kinematic s) (s_gravity s) (s_anisotropicFriction s)
    (s_imagePath s) (s_radius s) (s_height s).
Definition with_linearDamping (s : Settings) (v : Q) : Settings :=
  mkSettings (s_type s) (s_mass s) (s_friction s) (s_restitution s) v
    (s_angularDamping s) (s_kinematic s) (s_gravity s) (s_anisotropicFriction s)
    (s_imagePath s) (s_radius s) (s_height s).
Definition with_angularDamping (s : Settings) (v : Q) : Settings :=
  mkSettings (s_type s) (s_mass s) (s_friction s) (s_restitution s) (s_linearDamping s)
    v (s_kinematic s) (s_gravity s) (s_anisotropicFriction s) (s_imagePath s)
    (s_radius s) (s_height s).
Definition with_kinematic (s : Settings) (v : bool) : Settings :=
  mkSettings (s_type s) (s_mass s) (s_friction s) (s_restitution s) (s_linearDamping s)
    (s_angularDamping s) v (s_gravity s) (s_anisotropicFriction s) (s_imagePath s)
    (s_radius s) (s_height s).
Definition with_gravity (s : Settings) (v : option Vector3) : Settings :=
  mkSettings (s_type s) (s_mass s) (s_friction s) (s_restitution s) (s_linearDamping s)
    (s_angularDamping s) (s_kinematic s) v (s_anisotropicFriction s) (s_imagePath s)
    (s_radius s) (s_height s).
Definition with_anisotropicFriction (s : Settings) (v : option Vector3) : Settings :=
  mkSettings (s_type s) (s_mass s) (s_friction s) (s_restitution s) (s_linearDamping s)
    (s_angularDamping s) (s_kinematic s) (s_gravity s) v (s_imagePath s) (s_radius s)
    (s_height s).
Definition with_imagePath (s : Settings) (v : option string) : Settings :=
  mkSettings (s_type s) (s_mass s) (s_friction s) (s_restitution s) (s_linearDamping s)
    (s_angularDamping s) (s_kinematic s) (s_gravity s) (s_anisotropicFriction s) v
    (s_radius s) (s_height s).
Definition with_radius (s : Settings) (v : Q) : Settings :=
  mkSettings (s_type s) (s_mass s) (s_friction s) (s_restitution s) (s_linearDamping s)
    (s_angularDamping s) (s_kinematic s) (s_gravity s) (s_anisotropicFriction s)
    (s_imagePath s) v (s_height s).
Definition with_height (s : Settings) (v : Q) : Settings :=
  mkSettings (s_type s) (s_mass s) (s_friction s) (s_restitution s) (s_linearDamping s)
    (s_angularDamping s) (s_kinematic s) (s_gravity s) (s_anisotropicFriction s)
    (s_imagePath s) (s_radius s) v.

Definition defaults : Settings :=
  mkSettings SHAPE_NONE 0 (1 # 2) 0 0 0 false None None None (-1) (-1).

Definition WARN_NAMESPACE : string :=
  "Failed to load rigid body from properties object: must be non-null object and have namespace equal to 'rigidbody'.".
Definition WARN_TYPE : string :=
  "Could not create rigid body; unsupported value for rigid body type: '%s'.".
Definition WARN_PRIMITIVE : string :=
  "Mesh rigid bodies are currently only supported on meshes with primitive type equal to TRIANGLES.".
Definition WARN_IMAGE : string :=
  "Heightfield rigid body requires an image path.".
Definition WARN_FORMAT : string :=
  "Heightmap: pixel format is not supported: %d".
Definition WARN_CAPSULE : string :=
  "Both 'radius' and 'height' must be specified for a capsule rigid body.".

Definition parseShapeType (typeStr : string) : option ShapeType :=
  if String.eqb typeStr "BOX" then Some SHAPE_BOX
  else if String.eqb typeStr "SPHERE" then Some SHAPE_SPHERE
  else if String.eqb typeStr "MESH" then Some SHAPE_MESH
  else if String.eqb typeStr "HEIGHTFIELD" then Some SHAPE_HEIGHTFIELD
  else if String.eqb typeStr "CAPSULE" then Some SHAPE_CAPSULE
  else None.

Context `{LA : LoaderAPI}.

(** "Load the defined properties": [None] is the [return NULL] inside the
    loop. *)
Fixpoint loadProperties (props : list (string * string)) (s : Settings)
  : M (option Settings) :=
  match props with
  | [] => ret (Some s)
  | (name, value) :: rest =>
      if String.eqb name "type" then
        match parseShapeType value with
        | Some t => loadProperties rest (with_type s t)
        | None => emit (Warn WARN_TYPE) ;;; ret None
        end
      else if String.eqb name "mass" then
        loadProperties rest (with_mass s (getFloat value))
      else if String.eqb name "friction" then
        loadProperties rest (with_friction s (getFloat value))
      else if String.eqb name "restitution" then
        loadProperties rest (with_restitution s (getFloat value))
      else if String.eqb name "linearDamping" then
        loadProperties rest (with_linearDamping s (getFloat value))
      else if String.eqb name "angularDamping" then
        loadProperties rest (with_angularDamping s (getFloat value))
      else if String.eqb name "kinematic" then
        loadProperties rest (with_kinematic s (getBool value))
      else if String.eqb name "gravity" then
        loadProperties rest (with_gravity s (Some (getVector3 value)))
      else if String.eqb name "anisotropicFriction" then
        loadProperties rest (with_anisotropicFriction s (Some (getVector3 value)))
      else if String.eqb name "image" then
        loadProperties rest (with_imagePath s (Some value))
      else if String.eqb name "radius" then
        loadProperties rest (with_radius s (getFloat value))
      else if String.eqb name "height" then
        loadProperties rest (with_height s (getFloat value))
      else loadProperties rest s
  end.

(** The inline setters of PhysicsRigidBody.inl act on the Bullet body. *)
Definition setKinematic (b : PhysicsRigidBody) (kinematic : bool) : PhysicsRigidBody :=
  set_body b (bt_setKinematic (_body b) kinematic).
Definition setGravity (b : PhysicsRigidBody) (gravity : Vector3) : PhysicsRigidBody :=
  set_body b (bt_setGravity (_body b) gravity).
Definition setAnisotropicFriction (b : PhysicsRigidBody) (friction : Vector3)
  : PhysicsRigidBody :=
  set_body b (bt_setAnisotropicFriction (_body b) friction).

(** "Create the rigid body": the [switch (type)]; the outer [None] is a
    [return NULL] inside the switch, the inner one a null [body]. *)
Definition createBody (node : Node) (s : Settings)
  : M (option (option PhysicsRigidBody)) :=
  match s_type s with
  | SHAPE_HEIGHTFIELD =>
      match s_imagePath s with
      | None => emit (Warn WARN_IMAGE) ;;; ret (Some None)
      | Some imagePath =>
          match Image_create imagePath with
          | None => ret None
          | Some image =>
              match getFormat image with
              | RGB | RGBA =>
                  body <- PhysicsRigidBody_fromImage node image (s_mass s) (s_friction s)
                            (s_restitution s) (s_linearDamping s) (s_angularDamping s) ;;
                  ret (Some (Some body))
              | OTHER_FORMAT => emit (Warn WARN_FORMAT) ;;; ret None
              end
          end
      end
  | SHAPE_CAPSULE =>
      if Qeq_bool (s_radius s) (-1) || Qeq_bool (s_height s) (-1) then
        emit (Warn WARN_CAPSULE) ;;; ret (Some None)
      else
        body <- PhysicsRigidBody_fromCapsule node (s_radius s) (s_height s) (s_mass s)
                  (s_friction s) (s_restitution s) (s_linearDamping s)
                  (s_angularDamping s) ;;
        ret (Some (Some body))
  | type =>
      body <- PhysicsRigidBody_fromShape node type (s_mass s) (s_friction s)
                (s_restitution s) (s_linearDamping s) (s_angularDamping s) ;;
      ret (Some (Some body))
  end.

(** "Set any initially defined properties": each setter is called through
    [body], whatever [body] is. *)
Definition applySettings (body : option PhysicsRigidBody) (s : Settings)
  : M (option PhysicsRigidBody) :=
  body1 <- (if s_kinematic s
            then b <- deref body ;; ret (Some (setKinematic b (s_kinematic s)))
            else ret body) ;;
  body2 <- (match s_gravity s with
            | Some g => b <- deref body1 ;; ret (Some (setGravity b g))
            | None => ret body1
            end) ;;
  match s_anisotropicFriction s with
  | Some f => b <- deref body2 ;; ret (Some (setAnisotropicFriction b f))
  | None => ret body2
  end.

(** "Check that the node's mesh's primitive type is supported": [false]
    is the [return NULL]. *)
Definition checkPrimitiveType (node : Node) (s : Settings) : M bool :=
  if bool_decide (s_type s = SHAPE_MESH) then
    mesh <- deref (getMesh node) ;;
    match getPrimitiveType mesh with
    | TRIANGLES => ret true
    | LINES | LINE_STRIP | POINTS | TRIANGLE_STRIP =>
        emit (Warn WARN_PRIMITIVE) ;;; ret false
    end
  else ret true.

(** [create] from a [Properties] block; the result [None] is the null body.
    [assert(properties)] is taken as compiled in. *)
Definition create (node : Node) (properties : option Properties)
  : M (option PhysicsRigidBody) :=
  match properties with
  | None => fail AssertionFailed
  | Some p =>
      if negb (String.eqb (getNamespace p) "rigidbody") then
        emit (Warn WARN_NAMESPACE) ;;; ret None
      else
        loaded <- loadProperties (properties_list p) defaults ;;
        match loaded with
        | None => ret None
        | Some s =>
            supported <- checkPrimitiveType node s ;;
            if negb supported then ret None
            else
              created <- createBody node s ;;
              match created with
              | None => ret None
              | Some body => applySettings body s
              end
        end
  end.

End RigidBody.

(** The invariant of the inverse cache: the cache is either marked dirty
    or allocated.  Constructors mark it dirty, [getHeight] allocates it
    before clearing the mark. *)
Definition inverseCached `{PA : PhysicsAPI} (b : PhysicsRigidBody) : Prop :=
  _inverseIsDirty b = true \/ is_Some (_inverse b).

(** ** The per-pixel height as the specification words it

    The height of pixel [(x, y)] from the three colour channels of that
    same pixel, the pixel at offset [x + y * width] of a row-major image. *)
Definition specPixelHeight (image : Image) (pixelSize : Z) (minHeight maxHeight : Q)
    (x y : Z) : option Q :=
  let p := (x + y * imageWidth image) * pixelSize in
  r ← getData image !! Z.to_nat p;
  g ← getData image !! Z.to_nat (p + 1);
  b ← getData image !! Z.to_nat (p + 2);
  Some ((inject_Z (r + g + b) / 768) * (maxHeight - minHeight) + minHeight)%Q.

(** ** A concrete set of collaborators

    Used to run the embedding on concrete inputs: every node sits at the
    identity transform, a collision shape is its Bullet tag, and a Bullet
    body is the list of the calls made on it. *)
Module Sample.

#[export] Instance math : MathAPI := {|
  lengthSquared := fun v => (vx v * vx v + vy v * vy v + vz v * vz v)%Q;
  negate := fun v => mkVector3 (- vx v) (- vy v) (- vz v);
  Matrix := unit;
  Matrix_new := tt;
  Matrix_invert := fun _ _ => tt;
  Matrix_mul := fun _ v => v;
  Matrix_getScale := fun _ => mkVector3 1 1 1;
  MATH_EPSILON := 1 # 1000000
|}.

Inductive BulletCall : Type :=
| Activate
| ApplyForce (force position : Vector3)
| ApplyCentralForce (force : Vector3)
| ApplyImpulse (impulse position : Vector3)
| ApplyCentralImpulse (impulse : Vector3)
| ApplyTorque (torque : Vector3)
| ApplyTorqueImpulse (torque : Vector3)
| SetKinematic (kinematic : bool)
| SetGravity (gravity : Vector3)
| SetAnisotropicFriction (friction : Vector3).

(** The velocity of a unit-mass body that only reacts to impulses. *)
Fixpoint velocity (calls : list BulletCall) : Vector3 :=
  match calls with
  | [] => zeroVector
  | (ApplyImpulse i _ | ApplyCentralImpulse i) :: rest =>
      let v := velocity rest in
      mkVector3 (vx v + vx i) (vy v + vy i) (vz v + vz i)
  | _ :: rest => velocity rest
  end.

#[export] Instance physics : PhysicsAPI := {|
  btCollisionShape := BroadphaseNativeTypes;
  btRigidBody := list BulletCall;
  getShapeType := fun s => s;
  calculateLocalInertia := fun _ _ => zeroVector;
  bullet_new := fun _ _ _ _ _ _ _ _ _ => [];
  activate := fun rb => Activate :: rb;
  bt_applyForce := fun rb f p => ApplyForce f p :: rb;
  bt_applyCentralForce := fun rb f => ApplyCentralForce f :: rb;
  bt_applyImpulse := fun rb i p => ApplyImpulse i p :: rb;
  bt_applyCentralImpulse := fun rb i => ApplyCentralImpulse i :: rb;
  bt_applyTorque := fun rb t => ApplyTorque t :: rb;
  bt_applyTorqueImpulse := fun rb t => ApplyTorqueImpulse t :: rb;
  bt_getLinearVelocity := velocity;
  bt_setKinematic := fun rb k => SetKinematic k :: rb;
  bt_setGravity := fun rb g => SetGravity g :: rb;
  bt_setAnisotropicFriction := fun rb f => SetAnisotropicFriction f :: rb;
  createBox := fun _ _ _ => BOX_SHAPE_PROXYTYPE;
  createSphere := fun _ _ => SPHERE_SHAPE_PROXYTYPE;
  createMesh := fun _ _ => TRIANGLE_MESH_SHAPE_PROXYTYPE;
  createCapsule := fun _ _ => CAPSULE_SHAPE_PROXYTYPE;
  createHeightfield := fun _ _ _ _ _ => TERRAIN_SHAPE_PROXYTYPE
|}.

#[export] Instance loader : LoaderAPI := {|
  Image_create := fun _ => None;
  getFloat := fun _ => 0%Q;
  getBool := fun s => String.eqb s "true";
  getVector3 := fun _ => zeroVector
|}.

(** A node whose mesh spans [x] in [[0, sx]], [y] in [[0, 768]] and [z] in
    [[0, sz]]: heights run from 0 to 768, so that a pixel's height is the
    sum of its three channels. *)
Definition terrainNode (sx sz : Q) : Node :=
  mkNode tt
    (Some (mkMesh (mkBoundingBox (mkVector3 0 0 0) (mkVector3 sx 768 sz))
                  (mkBoundingSphere zeroVector 1) TRIANGLES)).

(** A grey RGB image, one byte value per pixel, row-major. *)
Definition greyImage (w h : Z) (pixels : list Z) : Image :=
  mkImage RGB w h (pixels ≫= (fun p => [p; p; p])).

(** 3 columns by 2 rows: row 0 is 10 20 30, row 1 is 40 50 60. *)
Definition image3x2 : Image := greyImage 3 2 [10; 20; 30; 40; 50; 60].

(** 2 columns by 2 rows: row 0 is 10 20, row 1 is 30 40. *)
Definition image2x2 : Image := greyImage 2 2 [10; 20; 30; 40].

(** A box body, and a heightfield body of 2 by 2 samples. *)
Definition boxBody : PhysicsRigidBody :=
  newBody (Some BOX_SHAPE_PROXYTYPE) [] (terrainNode 1 1).

Definition terrainBody : PhysicsRigidBody :=
  mkPhysicsRigidBody (Some TERRAIN_SHAPE_PROXYTYPE) [] (terrainNode 1 1)
    None None None None (Some [90%Q; 120%Q; 30%Q; 60%Q]) None true 2 2.

(** The block [rigidbody { type = HEIGHTFIELD; gravity = ... }]. *)
Definition heightfieldWithoutImage (gravity : string) : Properties :=
  mkProperties "rigidbody" [("type", "HEIGHTFIELD"); ("gravity", gravity)].

End Sample.

(** * Further definitions

    The vocabulary of the properties proved below about the rest of the
    file: the loops of the heightfield constructor, the property loop of
    [create] and the constraint registry. *)

(** The integers that a [float] counts one by one: every [unsigned int]
    up to [2^24] converts to [float] unchanged, and up to there
    [z += 1.0f] on an [unsigned int] counter is [z + 1]. *)
Definition FLOAT_EXACT : Z := 2 ^ 24.

(** A read event at an offset inside a buffer of [n] samples. *)
Definition readsWithin (n : Z) (tr : list event) : Prop :=
  Forall (fun e => exists i, e = Read i /\ 0 <= i < n) tr.

(** The shape of the two loop nests of the heightfield constructor: for
    [i] below [n] and [j] below [m], the cell [idx i j] of an array
    receives the value computed by [val i j]. *)
Definition fill {A} (n m : Z) (idx : Z -> Z -> Z) (val : Z -> Z -> M A)
    (a0 : list A) : M (list A) :=
  for_loop n (fun i a =>
    for_loop m (fun j a => h <- val i j ;; store a (idx i j) h) a) a0.

(** The cell of [(i, j)] holds the value that [val i j] returns. *)
Definition filled {A} (idx : Z -> Z -> Z) (val : Z -> Z -> M A) (a : list A) (i j : Z)
  : Prop :=
  exists v, 0 <= idx i j /\ a !! Z.to_nat (idx i j) = Some v /\ outcome (val i j) = Ok v.

(** The byte offset of the first channel that the code reads for pixel
    [(x, y)]: the row stride is the image height. *)
Definition sourceOffset (image : Image) (pixelSize x y : Z) : Z :=
  (x + y * imageHeight image) * pixelSize.

(** The height computed from three channel bytes. *)
Definition channelHeight (r g b : Z) (minHeight maxHeight : Q) : Q :=
  (((to_float r + to_float g + to_float b) / 768) * (maxHeight - minHeight) + minHeight)%Q.

(** The image coordinate sampled for grid index [k] of [size + 1] along an
    axis of [n] pixels: [k * ((n - 1) / size)]. *)
Definition imageCoordinate (k n size : Z) : Q :=
  (to_float k * (to_float (usub n 1) / to_float size))%Q.

(** The sample that the second loop nest computes for grid cell
    [(row, col)]: the rows are flipped. *)
Definition gridSample (data : list Q) (W H sizeWidth sizeHeight row col : Z) : M Q :=
  calculateHeight data W H (imageCoordinate col W sizeWidth)
    (imageCoordinate (usub sizeHeight row) H sizeHeight).


(** The value of the last property named [key]. *)
Fixpoint lastValue (key : string) (props : list (string * string)) : option string :=
  match props with
  | [] => None
  | (name, value) :: rest =>
      match lastValue key rest with
      | Some v => Some v
      | None => if String.eqb name key then Some value else None
      end
  end.

(** A [type] property whose value names no shape. *)
Definition unsupportedType (property : string * string) : Prop :=
  fst property = "type" /\ parseShapeType (snd property) = None.

(** The settings after the loop, from the last value of each key; a key
    that is absent keeps the initial setting. *)
Definition lastSettings `{LA : LoaderAPI} (props : list (string * string)) (s : Settings)
  : Settings :=
  mkSettings
    (default (s_type s) (lastValue "type" props ≫= parseShapeType))
    (default (s_mass s) (getFloat <$> lastValue "mass" props))
    (default (s_friction s) (getFloat <$> lastValue "friction" props))
    (default (s_restitution s) (getFloat <$> lastValue "restitution" props))
    (default (s_linearDamping s) (getFloat <$> lastValue "linearDamping" props))
    (default (s_angularDamping s) (getFloat <$> lastValue "angularDamping" props))
    (default (s_kinematic s) (getBool <$> lastValue "kinematic" props))
    (match lastValue "gravity" props with
     | Some v => Some (getVector3 v) | None => s_gravity s end)
    (match lastValue "anisotropicFriction" props with
     | Some v => Some (getVector3 v) | None => s_anisotropicFriction s end)
    (match lastValue "image" props with
     | Some v => Some v | None => s_imagePath s end)
    (default (s_radius s) (getFloat <$> lastValue "radius" props))
    (default (s_height s) (getFloat <$> lastValue "height" props)).

(** Whether "set any initially defined properties" calls a setter. *)
Definition touchesBody (s : Settings) : bool :=
  s_kinematic s
  || match s_gravity s with Some _ => true | None => false end
  || match s_anisotropicFriction s with Some _ => true | None => false end.

(** The local inertia that [createRigidBodyInternal] hands to Bullet. *)
Definition localInertiaOf `{PA : PhysicsAPI} (shape : btCollisionShape) (mass : Q)
  : Vector3 :=
  if Qeq_bool mass 0 then zeroVector
  else if bool_decide (getShapeType shape = TRIANGLE_MESH_SHAPE_PROXYTYPE) then zeroVector
  else calculateLocalInertia shape mass.

(** The center of mass offset handed to the motion state: the negated,
    scaled center of the bounding sphere, unless it is negligible. *)
Definition offsetOf `{MA : MathAPI} (mesh : Mesh) (scale : Vector3) : option Vector3 :=
  if Qgtb (lengthSquared (centerOffset mesh scale)) MATH_EPSILON
  then Some (centerOffset mesh scale) else None.

(** "Set any initially defined properties" on a body that exists: the
    setters that are due, in the order of the source. *)
Definition configure `{PA : PhysicsAPI} (s : Settings) (b : PhysicsRigidBody)
  : PhysicsRigidBody :=
  let b1 := if s_kinematic s then setKinematic b true else b in
  let b2 := match s_gravity s with Some g => setGravity b1 g | None => b1 end in
  match s_anisotropicFriction s with
  | Some f => setAnisotropicFriction b2 f
  | None => b2
  end.

(** ** The constraint registry

    [_constraints] is a vector of constraint pointers; the two methods
    that maintain it are modelled on the vector itself. *)
Section ConstraintRegistry.
Context {PhysicsConstraint : Type} `{EqDecision PhysicsConstraint}.
Local Open Scope nat_scope.

Definition addConstraint (constraints : list PhysicsConstraint)
    (constraint : PhysicsConstraint) : list PhysicsConstraint :=
  constraints ++ [constraint].

(** The loop of [removeConstraint] from index [i], at most [n] steps: the
    first element equal to [constraint] is erased and the loop left. *)
Fixpoint removeConstraint_from (n i : nat) (constraints : list PhysicsConstraint)
    (constraint : PhysicsConstraint) : list PhysicsConstraint :=
  match n with
  | O => constraints
  | S n' =>
      match constraints !! i with
      | Some c =>
          if decide (c = constraint) then delete i constraints
          else removeConstraint_from n' (S i) constraints constraint
      | None => constraints
      end
  end.

Definition removeConstraint (constraints : list PhysicsConstraint)
    (constraint : PhysicsConstraint) : list PhysicsConstraint :=
  removeConstraint_from (length constraints) 0 constraints constraint.

End ConstraintRegistry.

(** ** Further concrete inputs *)

Module Inputs.
Import Sample.

Definition capsuleBlock : Properties :=
  mkProperties "rigidbody" [("type", "BOX"); ("radius", "1"); ("type", "CAPSULE");
                            ("colour", "red")].

Definition heightfieldBlock : Properties :=
  mkProperties "rigidbody" [("type", "HEIGHTFIELD"); ("mass", "1"); ("kinematic", "true")].

Definition meshBlock : Properties :=
  mkProperties "rigidbody" [("type", "MESH"); ("gravity", "0, 0, 0")].

(** The mesh of [terrainNode sx sz]. *)
Definition terrainMesh (sx sz : Q) : Mesh :=
  mkMesh (mkBoundingBox (mkVector3 0 0 0) (mkVector3 sx 768 sz))
    (mkBoundingSphere zeroVector 1) TRIANGLES.

Definition lineMesh : Mesh :=
  mkMesh (mkBoundingBox zeroVector zeroVector) (mkBoundingSphere zeroVector 1) LINES.

Definition lineNode : Node := mkNode tt (Some lineMesh).

Definition fullCapsuleBlock : Properties :=
  mkProperties "rigidbody" [("type", "CAPSULE"); ("radius", "1"); ("height", "2");
                            ("kinematic", "true"); ("gravity", "0, 0, 0")].

Definition bareNode : Node := mkNode tt None.

Definition untypedBlock : Properties :=
  mkProperties "rigidbody" [("mass", "12")].

(** The block [rigidbody { }]: no key at all. *)
Definition emptyBlock : Properties := mkProperties "rigidbody" [].

(** A loader that reads unsigned decimal integers. *)
Fixpoint decimal (s : string) (acc : Z) : Z :=
  match s with
  | EmptyString => acc
  | String c rest => decimal rest (10 * acc + (Z.of_N (Ascii.N_of_ascii c) - 48))
  end.

Definition decimalLoader : LoaderAPI := {|
  Image_create := fun _ => None;
  getFloat := fun s => inject_Z (decimal s 0);
  getBool := fun s => String.eqb s "true";
  getVector3 := fun _ => zeroVector
|}.

End Inputs.

(** * Properties *)

(** ** Numbers and the effect monad *)

Lemma bind_ret_l {A B} (a : A) (k : A -> M B) : bind (ret a) k = k a.
Proof. unfold bind, ret. destruct (k a) as [t r]. reflexivity. Qed.

Lemma bind_Ok_inv {A B} (m : M A) (k : A -> M B) (tr : list event) (b : B) :
  bind m k = (tr, Ok b) ->
  exists t1 a t2, m = (t1, Ok a) /\ k a = (t2, Ok b) /\ tr = t1 ++ t2.
Proof.
  destruct m as [t1 [a | f]]; simpl; [| discriminate].
  destruct (k a) as [t2 r] eqn:Hk. intros E. inversion E; subst.
  exists t1, a, t2. auto.
Qed.

Lemma Qtrunc_nonneg (q : Q) : (0 <= q)%Q -> Qtrunc q = Qfloor q.
Proof.
  destruct q as [n d]. unfold Qle, Qtrunc, Qfloor. simpl. intros Hn.
  apply Z.quot_div_nonneg; lia.
Qed.

Lemma Qfloor_nonneg (q : Q) : (0 <= q)%Q -> 0 <= Qfloor q.
Proof. intros Hq. change 0 with (Qfloor 0). apply Qfloor_resp_le, Hq. Qed.

Lemma Qfloor_lt_Z (q : Q) (n : Z) : (q < inject_Z n)%Q -> Qfloor q < n.
Proof.
  intros Hq. rewrite Zlt_Qlt.
  eapply Qle_lt_trans; [apply Qfloor_le | exact Hq].
Qed.

Lemma float_to_uint_floor (q : Q) :
  (0 <= q)%Q -> (q < inject_Z UINT_MODULUS)%Q -> float_to_uint q = ret (Qfloor q).
Proof.
  intros H0 H1. unfold float_to_uint. rewrite (Qtrunc_nonneg q H0).
  pose proof (Qfloor_nonneg q H0). pose proof (Qfloor_lt_Z q _ H1).
  destruct (Z.leb_spec 0 (Qfloor q)); [| lia].
  destruct (Z.ltb_spec (Qfloor q) UINT_MODULUS); [| lia].
  reflexivity.
Qed.

Lemma uint_small (z : Z) : 0 <= z < UINT_MODULUS -> uint z = z.
Proof. intros Hz. unfold uint. apply Z.mod_small, Hz. Qed.

Lemma modf_nonneg (q : Q) : (0 <= q)%Q -> modf q = (q - inject_Z (Qfloor q))%Q.
Proof. intros Hq. unfold modf. rewrite (Qtrunc_nonneg q Hq). reflexivity. Qed.




(** What [calculateHeight] is on a coordinate that converts: the
    conversions give the floors, [x2] and [y2] do not wrap. *)
Lemma calculateHeight_floor (data : list Q) (w h : Z) (x y : Q) :
  (0 <= x)%Q -> (x < inject_Z (UINT_MODULUS - 1))%Q ->
  (0 <= y)%Q -> (y < inject_Z (UINT_MODULUS - 1))%Q ->
  let x1 := Qfloor x in
  let y1 := Qfloor y in
  let x2 := x1 + 1 in
  let y2 := y1 + 1 in
  let fx := (x - inject_Z x1)%Q in
  let fy := (y - inject_Z y1)%Q in
  calculateHeight data w h x y =
    if (w <=? x2) && (h <=? y2) then
      load data (cell x1 y1 w)
    else if w <=? x2 then
      a <- load data (cell x1 y1 w) ;;
      b <- load data (cell x1 y2 w) ;;
      ret (a * (1 - fy) + b * fy)%Q
    else if h <=? y2 then
      a <- load data (cell x1 y1 w) ;;
      b <- load data (cell x2 y1 w) ;;
      ret (a * (1 - fx) + b * fx)%Q
    else
      a <- load data (cell x1 y1 w) ;;
      b <- load data (cell x1 y2 w) ;;
      c <- load data (cell x2 y2 w) ;;
      d <- load data (cell x2 y1 w) ;;
      ret (a * (1 - fx) * (1 - fy) + b * (1 - fx) * fy +
           c * fx * fy + d * fx * (1 - fy))%Q.
Proof.
  intros Hx0 Hx1 Hy0 Hy1. cbv zeta.
  assert (Hx1' : (x < inject_Z UINT_MODULUS)%Q).
  { eapply Qlt_trans; [exact Hx1 |]. rewrite <- Zlt_Qlt. lia. }
  assert (Hy1' : (y < inject_Z UINT_MODULUS)%Q).
  { eapply Qlt_trans; [exact Hy1 |]. rewrite <- Zlt_Qlt. lia. }
  pose proof (Qfloor_nonneg x Hx0) as Hfx0.
  pose proof (Qfloor_nonneg y Hy0) as Hfy0.
  pose proof (Qfloor_lt_Z x _ Hx1) as Hfx1.
  pose proof (Qfloor_lt_Z y _ Hy1) as Hfy1.
  unfold calculateHeight.
  rewrite (float_to_uint_floor x Hx0 Hx1'), bind_ret_l.
  rewrite (float_to_uint_floor y Hy0 Hy1'), bind_ret_l.
  cbv zeta.
  rewrite (modf_nonneg x Hx0), (modf_nonneg y Hy0).
  assert (Hx2 : uadd (Qfloor x) 1 = Qfloor x + 1).
  { unfold uadd. apply uint_small. lia. }
  assert (Hy2 : uadd (Qfloor y) 1 = Qfloor y + 1).
  { unfold uadd. apply uint_small. lia. }
  rewrite Hx2, Hy2.
  reflexivity.
Qed.

Lemma outcome_bind_ok {A B} (m : M A) (k : A -> M B) (a : A) :
  outcome m = Ok a -> outcome (bind m k) = outcome (k a).
Proof.
  destruct m as [t r]. simpl. intros ->. simpl.
  destruct (k a) as [t' r']. reflexivity.
Qed.

Lemma outcome_load {A} (data : list A) (i : Z) (d : A) :
  0 <= i -> data !! Z.to_nat i = Some d -> outcome (load data i) = Ok d.
Proof.
  intros Hi Hd. unfold load, fetch.
  destruct (Z.leb_spec 0 i); [| lia]. rewrite Hd. reflexivity.
Qed.

Lemma cell_small (x y w h : Z) :
  0 <= x < w -> 0 <= y < h -> w * h < UINT_MODULUS ->
  cell x y w = x + y * w /\ 0 <= x + y * w < w * h.
Proof.
  intros Hx Hy Hwh.
  assert (0 <= y * w) by nia.
  assert (x + y * w < w * h) by nia.
  split; [| lia].
  unfold cell, uadd, umul. rewrite (uint_small (y * w)) by lia.
  apply uint_small. lia.
Qed.

Lemma lookup_cell (data : list Q) (x y w h : Z) :
  Z.of_nat (length data) = w * h -> w * h < UINT_MODULUS ->
  0 <= x < w -> 0 <= y < h ->
  exists d, data !! Z.to_nat (x + y * w) = Some d /\
            outcome (load data (cell x y w)) = Ok d.
Proof.
  intros Hlen Hwh Hx Hy.
  destruct (cell_small x y w h Hx Hy Hwh) as [Hc Hr].
  destruct (lookup_lt_is_Some_2 data (Z.to_nat (x + y * w))) as [d Hd]; [lia |].
  exists d. split; [exact Hd |]. rewrite Hc. apply outcome_load; [lia | exact Hd].
Qed.

(** A read of the cell [x + y*w], when the buffer holds it: the offset
    does not wrap in a buffer that an [unsigned int] can index. *)
Lemma load_cell_at (data : list Q) (x y w : Z) (a : Q) :
  0 <= x -> 0 <= y -> 0 <= w -> Z.of_nat (length data) <= UINT_MODULUS ->
  data !! Z.to_nat (x + y * w) = Some a ->
  load data (cell x y w) = ([Read (x + y * w)], Ok a).
Proof.
  intros Hx Hy Hw Hlen Ha.
  pose proof (lookup_lt_Some _ _ _ Ha) as Hlt.
  assert (H0 : 0 <= y * w) by nia.
  assert (Hc : cell x y w = x + y * w).
  { unfold cell, uadd, umul. rewrite (uint_small (y * w)) by lia.
    apply uint_small. lia. }
  rewrite Hc. unfold load, fetch, emit, bind.
  destruct (Z.leb_spec 0 (x + y * w)); [| lia]. rewrite Ha. reflexivity.
Qed.

(** ** The bilinear sampler *)

(** C3: for a non-negative coordinate [(x, y)] (one that converts to
    [unsigned int]), with [x1 = floor x], [y1 = floor y], [x2 = x1 + 1],
    [y2 = y1 + 1] and fractional parts [fx], [fy], [calculateHeight] reads
    and returns the corner sample [data[x1 + y1*w]] when [x2 >= w] and
    [y2 >= h]; reads [data[x1 + y1*w]] and [data[x1 + y2*w]] and blends
    them along [y] when only [x2 >= w]; reads [data[x1 + y1*w]] and
    [data[x2 + y1*w]] and blends them along [x] when only [y2 >= h]; and
    otherwise reads the four corners and returns the bilinear blend with
    the weights [(1-fx)(1-fy)], [(1-fx)fy], [fx fy], [fx(1-fy)] on
    [data[x1 + y1*w]], [data[x1 + y2*w]], [data[x2 + y2*w]],
    [data[x2 + y1*w]].  The grid [0,0,10,10] of width 2 sampled at
    [(0.5, 0.5)] gives 5. *)
Theorem calculateHeight_branches (data : list Q) (w h : Z) (x y : Q) :
  (0 <= x)%Q -> (x < inject_Z (UINT_MODULUS - 1))%Q ->
  (0 <= y)%Q -> (y < inject_Z (UINT_MODULUS - 1))%Q ->
  0 <= w -> Z.of_nat (length data) <= UINT_MODULUS ->
  let x1 := Qfloor x in
  let y1 := Qfloor y in
  let x2 := x1 + 1 in
  let y2 := y1 + 1 in
  let fx := (x - inject_Z x1)%Q in
  let fy := (y - inject_Z y1)%Q in
  (w <= x2 -> h <= y2 ->
   forall a,
     data !! Z.to_nat (x1 + y1 * w) = Some a ->
     calculateHeight data w h x y = ([Read (x1 + y1 * w)], Ok a)) /\
  (w <= x2 -> y2 < h ->
   forall a b,
     data !! Z.to_nat (x1 + y1 * w) = Some a ->
     data !! Z.to_nat (x1 + y2 * w) = Some b ->
     calculateHeight data w h x y =
       ([Read (x1 + y1 * w); Read (x1 + y2 * w)],
        Ok (a * (1 - fy) + b * fy)%Q)) /\
  (x2 < w -> h <= y2 ->
   forall a b,
     data !! Z.to_nat (x1 + y1 * w) = Some a ->
     data !! Z.to_nat (x2 + y1 * w) = Some b ->
     calculateHeight data w h x y =
       ([Read (x1 + y1 * w); Read (x2 + y1 * w)],
        Ok (a * (1 - fx) + b * fx)%Q)) /\
  (x2 < w -> y2 < h ->
   forall a b c d,
     data !! Z.to_nat (x1 + y1 * w) = Some a ->
     data !! Z.to_nat (x1 + y2 * w) = Some b ->
     data !! Z.to_nat (x2 + y2 * w) = Some c ->
     data !! Z.to_nat (x2 + y1 * w) = Some d ->
     calculateHeight data w h x y =
       ([Read (x1 + y1 * w); Read (x1 + y2 * w); Read (x2 + y2 * w); Read (x2 + y1 * w)],
        Ok (a * (1 - fx) * (1 - fy) + b * (1 - fx) * fy +
            c * fx * fy + d * fx * (1 - fy))%Q)) /\
  (exists v, outcome (calculateHeight [0%Q; 0%Q; 10%Q; 10%Q] 2 2 (1 # 2) (1 # 2)) = Ok v
             /\ (v == 5)%Q).
Proof.
  intros Hx0 Hx1 Hy0 Hy1 Hw0 Hlen x1 y1 x2 y2 fx fy.
  pose proof (calculateHeight_floor data w h x y Hx0 Hx1 Hy0 Hy1) as E.
  cbv zeta in E. fold x1 y1 in E. fold x2 y2 fx fy in E.
  assert (Hx1' : 0 <= x1) by (apply Qfloor_nonneg, Hx0).
  assert (Hy1' : 0 <= y1) by (apply Qfloor_nonneg, Hy0).
  assert (Hx2' : 0 <= x2) by (unfold x2; lia).
  assert (Hy2' : 0 <= y2) by (unfold y2; lia).
  repeat split.
  - intros Hw Hh a Ha. rewrite E.
    destruct (Z.leb_spec w x2); [| lia]. destruct (Z.leb_spec h y2); [| lia].
    simpl andb. cbv iota.
    apply load_cell_at; assumption.
  - intros Hw Hh a b Ha Hb. rewrite E.
    destruct (Z.leb_spec w x2); [| lia]. destruct (Z.leb_spec h y2); [lia |].
    simpl andb. cbv iota.
    rewrite (load_cell_at data x1 y1 w a), (load_cell_at data x1 y2 w b) by assumption.
    reflexivity.
  - intros Hw Hh a b Ha Hb. rewrite E.
    destruct (Z.leb_spec w x2); [lia |]. destruct (Z.leb_spec h y2); [| lia].
    simpl andb. cbv iota.
    rewrite (load_cell_at data x1 y1 w a), (load_cell_at data x2 y1 w b) by assumption.
    reflexivity.
  - intros Hw Hh a b c d Ha Hb Hc Hd. rewrite E.
    destruct (Z.leb_spec w x2); [lia |]. destruct (Z.leb_spec h y2); [lia |].
    simpl andb. cbv iota.
    rewrite (load_cell_at data x1 y1 w a), (load_cell_at data x1 y2 w b),
      (load_cell_at data x2 y2 w c), (load_cell_at data x2 y1 w d) by assumption.
    reflexivity.
  - eexists. split; [vm_compute; reflexivity | reflexivity].
Qed.

(** On the grid of rows 1 2 3 and 4 5 6, the point [(0.5, 0.25)] reads the
    offsets 0, 3, 4 and 1 in this order and blends their samples to
    2.25. *)
Lemma calculateHeight_branches_witness :
  exists v,
    calculateHeight [1%Q; 2%Q; 3%Q; 4%Q; 5%Q; 6%Q] 3 2 (1 # 2) (1 # 4)
    = ([Read 0; Read 3; Read 4; Read 1], Ok v) /\ (v == 9 # 4)%Q.
Proof.
  assert (H0 : (0 <= 1 # 2)%Q) by (vm_compute; discriminate).
  assert (H1 : (1 # 2 < inject_Z (UINT_MODULUS - 1))%Q) by (vm_compute; reflexivity).
  assert (H2 : (0 <= 1 # 4)%Q) by (vm_compute; discriminate).
  assert (H3 : (1 # 4 < inject_Z (UINT_MODULUS - 1))%Q) by (vm_compute; reflexivity).
  assert (H4 : 0 <= 3) by lia.
  assert (H5 : Z.of_nat (length [1%Q; 2%Q; 3%Q; 4%Q; 5%Q; 6%Q]) <= UINT_MODULUS)
    by (vm_compute; discriminate).
  destruct (calculateHeight_branches [1%Q; 2%Q; 3%Q; 4%Q; 5%Q; 6%Q] 3 2 (1 # 2) (1 # 4)
              H0 H1 H2 H3 H4 H5) as (_ & _ & _ & Hin & _).
  eexists. split.
  - exact (Hin ltac:(vm_compute; reflexivity) ltac:(vm_compute; reflexivity)
             1%Q 4%Q 5%Q 2%Q eq_refl eq_refl eq_refl eq_refl).
  - vm_compute. reflexivity.
Defined.

(** At the coordinate [(w, h)] itself the sampler computes the offset
    [w + h*w], past the end of every buffer of [w * h] samples. *)
Lemma calculateHeight_far_corner (data : list Q) (w h : Z) :
  0 < w -> 0 < h -> Z.of_nat (length data) = w * h -> w * h + w < UINT_MODULUS ->
  calculateHeight data w h (inject_Z w) (inject_Z h)
  = ([Read (w + h * w)], Fault OutOfBounds).
Proof.
  intros Hw Hh Hlen Hwh.
  assert (Hw' : w < UINT_MODULUS - 1) by nia.
  assert (Hh' : h < UINT_MODULUS - 1) by nia.
  assert (Hx0 : (0 <= inject_Z w)%Q) by (change 0%Q with (inject_Z 0); rewrite <- Zle_Qle; lia).
  assert (Hy0 : (0 <= inject_Z h)%Q) by (change 0%Q with (inject_Z 0); rewrite <- Zle_Qle; lia).
  assert (Hx1 : (inject_Z w < inject_Z (UINT_MODULUS - 1))%Q) by (rewrite <- Zlt_Qlt; lia).
  assert (Hy1 : (inject_Z h < inject_Z (UINT_MODULUS - 1))%Q) by (rewrite <- Zlt_Qlt; lia).
  rewrite (calculateHeight_floor data w h _ _ Hx0 Hx1 Hy0 Hy1). cbv zeta.
  rewrite !Qfloor_Z.
  destruct (Z.leb_spec w (w + 1)); [| lia].
  destruct (Z.leb_spec h (h + 1)); [| lia]. simpl andb. cbv iota.
  assert (Hc : cell w h w = w + h * w).
  { unfold cell, uadd, umul. rewrite (uint_small (h * w)) by nia.
    apply uint_small. nia. }
  rewrite Hc. unfold load, fetch, emit, bind.
  destruct (Z.leb_spec 0 (w + h * w)); [| nia].
  rewrite (lookup_ge_None_2 data (Z.to_nat (w + h * w))) by nia.
  reflexivity.
Qed.

(** C8: on a grid of width [w] and height [h], at an integer coordinate
    [(x, y)] with [0 <= x < w] and [0 <= y < h], [calculateHeight] returns
    [data[x + y*w]], in the interior and on the last row and column. *)
Theorem calculateHeight_integer (data : list Q) (w h x y : Z) :
  Z.of_nat (length data) = w * h -> w * h < UINT_MODULUS ->
  0 <= x < w -> 0 <= y < h ->
  exists v d,
    outcome (calculateHeight data w h (inject_Z x) (inject_Z y)) = Ok v /\
    data !! Z.to_nat (x + y * w) = Some d /\
    (v == d)%Q.
Proof.
  intros Hlen Hwh Hx Hy.
  assert (Hw : w < UINT_MODULUS) by nia.
  assert (Hh : h < UINT_MODULUS) by nia.
  assert (Hx0 : (0 <= inject_Z x)%Q) by (change 0%Q with (inject_Z 0); rewrite <- Zle_Qle; lia).
  assert (Hy0 : (0 <= inject_Z y)%Q) by (change 0%Q with (inject_Z 0); rewrite <- Zle_Qle; lia).
  assert (Hx1 : (inject_Z x < inject_Z (UINT_MODULUS - 1))%Q) by (rewrite <- Zlt_Qlt; lia).
  assert (Hy1 : (inject_Z y < inject_Z (UINT_MODULUS - 1))%Q) by (rewrite <- Zlt_Qlt; lia).
  rewrite (calculateHeight_floor data w h _ _ Hx0 Hx1 Hy0 Hy1). cbv zeta.
  rewrite !Qfloor_Z.
  destruct (lookup_cell data x y w h Hlen Hwh Hx Hy) as (a & Ha & La).
  destruct (Z.leb_spec w (x + 1)) as [Hxe | Hxi];
    destruct (Z.leb_spec h (y + 1)) as [Hye | Hyi]; simpl andb; cbv iota.
  - exists a, a. split; [exact La | split; [exact Ha | reflexivity]].
  - destruct (lookup_cell data x (y + 1) w h Hlen Hwh Hx ltac:(lia)) as (b & _ & Lb).
    eexists _, a. split; [| split; [exact Ha |]].
    + rewrite (outcome_bind_ok _ _ a La), (outcome_bind_ok _ _ b Lb). reflexivity.
    + ring.
  - destruct (lookup_cell data (x + 1) y w h Hlen Hwh ltac:(lia) Hy) as (b & _ & Lb).
    eexists _, a. split; [| split; [exact Ha |]].
    + rewrite (outcome_bind_ok _ _ a La), (outcome_bind_ok _ _ b Lb). reflexivity.
    + ring.
  - destruct (lookup_cell data x (y + 1) w h Hlen Hwh Hx ltac:(lia)) as (b & _ & Lb).
    destruct (lookup_cell data (x + 1) (y + 1) w h Hlen Hwh ltac:(lia) ltac:(lia))
      as (c & _ & Lc).
    destruct (lookup_cell data (x + 1) y w h Hlen Hwh ltac:(lia) Hy) as (d & _ & Ld).
    eexists _, a. split; [| split; [exact Ha |]].
    + rewrite (outcome_bind_ok _ _ a La), (outcome_bind_ok _ _ b Lb),
        (outcome_bind_ok _ _ c Lc), (outcome_bind_ok _ _ d Ld). reflexivity.
    + ring.
Qed.

Lemma calculateHeight_integer_witness :
  exists v d,
    outcome (calculateHeight [1%Q; 2%Q; 3%Q; 4%Q; 5%Q; 6%Q] 3 2 (inject_Z 1) (inject_Z 0)) = Ok v /\
    [1%Q; 2%Q; 3%Q; 4%Q; 5%Q; 6%Q] !! Z.to_nat (1 + 0 * 3) = Some d /\
    (v == d)%Q.
Proof.
  apply (calculateHeight_integer [1%Q; 2%Q; 3%Q; 4%Q; 5%Q; 6%Q] 3 2 1 0);
    vm_compute; try reflexivity; split; congruence.
Defined.

(** ** Height queries *)

Section HeightQueries.
Context `{PA : PhysicsAPI}.

Lemma refreshInverse_cached (b : PhysicsRigidBody) :
  inverseCached b -> is_Some (_inverse (refreshInverse b)).
Proof.
  unfold inverseCached, refreshInverse. intros [Hd | Hs].
  - rewrite Hd. simpl. eauto.
  - destruct (_inverseIsDirty b); simpl; eauto.
Qed.

Lemma refreshInverse_shape (b : PhysicsRigidBody) :
  _shape (refreshInverse b) = _shape b /\
  _width (refreshInverse b) = _width b /\
  _height (refreshInverse b) = _height b /\
  _heightfieldData (refreshInverse b) = _heightfieldData b.
Proof. unfold refreshInverse. destruct (_inverseIsDirty b); simpl; auto. Qed.

Lemma transformChanged_cached (b : PhysicsRigidBody) : inverseCached (transformChanged b).
Proof. left. reflexivity. Qed.


Lemma getHeight_cached (b b' : PhysicsRigidBody) (x y h : Q) (tr : list event) :
  inverseCached b -> getHeight b x y = (tr, Ok (b', h)) -> inverseCached b'.
Proof.
  intros Hc E. unfold getHeight in E.
  apply bind_Ok_inv in E. destruct E as (? & shape & ? & _ & E & _).
  destruct (negb _).
  - apply bind_Ok_inv in E. destruct E as (? & ? & ? & _ & E & _).
    unfold ret in E. injection E as _ <- _. exact Hc.
  - apply bind_Ok_inv in E. destruct E as (? & inv & ? & _ & E & _).
    pose proof (refreshInverse_cached b Hc) as Hs.
    destruct (outsideGrid _ _).
    + apply bind_Ok_inv in E. destruct E as (? & ? & ? & _ & E & _).
      unfold ret in E. injection E as _ <- _. right. exact Hs.
    + apply bind_Ok_inv in E. destruct E as (? & data & ? & _ & E & _).
      apply bind_Ok_inv in E. destruct E as (? & v & ? & _ & E & _).
      unfold ret in E. injection E as _ <- _. right. exact Hs.
Qed.

Lemma fromImage_cached (node : Node) (image : Image)
    (mass friction restitution linearDamping angularDamping : Q)
    (tr : list event) (b : PhysicsRigidBody) :
  PhysicsRigidBody_fromImage node image mass friction restitution
    linearDamping angularDamping = (tr, Ok b) ->
  inverseCached b.
Proof.
  intros E. unfold PhysicsRigidBody_fromImage in E.
  do 8 (apply bind_Ok_inv in E; destruct E as (? & ? & ? & _ & E & _)).
  unfold ret in E. injection E as _ <-. left. reflexivity.
Qed.

(** C5: on a body that has a collision shape and whose shape is not a
    heightfield shape, [getHeight] warns, returns 0 and leaves the whole
    body as it was, the cached inverse and its dirty flag included.  A
    body without a collision shape (the constructor leaves [_shape] null
    for [SHAPE_NONE]) is not covered by the test: the call dereferences the
    null shape. *)
Theorem getHeight_not_heightfield (b : PhysicsRigidBody) (x y : Q) :
  (forall shape, _shape b = Some shape ->
     getShapeType shape <> TERRAIN_SHAPE_PROXYTYPE ->
     getHeight b x y = ([Warn WARN_NOT_HEIGHTFIELD], Ok (b, 0%Q))) /\
  (_shape b = None -> getHeight b x y = ([], Fault NullDereference)).
Proof.
  split.
  - intros shape Hs Ht. unfold getHeight. rewrite Hs. simpl deref. rewrite bind_ret_l.
    rewrite bool_decide_eq_false_2 by exact Ht. reflexivity.
  - intros Hs. unfold getHeight. rewrite Hs. reflexivity.
Qed.


(** C10: on a body that has a collision shape, [supportsConstraints]
    returns true exactly when the shape is neither a triangle mesh nor a
    heightfield: true for box, sphere and capsule shapes, false for mesh
    and heightfield shapes.  On a body without a collision shape the call
    dereferences the null shape. *)
Theorem supportsConstraints_iff (b : PhysicsRigidBody) :
  (forall shape, _shape b = Some shape ->
     exists r,
       supportsConstraints b = ret r /\
       (r = true <-> getShapeType shape <> TRIANGLE_MESH_SHAPE_PROXYTYPE /\
                     getShapeType shape <> TERRAIN_SHAPE_PROXYTYPE) /\
       (getShapeType shape = BOX_SHAPE_PROXYTYPE \/
        getShapeType shape = SPHERE_SHAPE_PROXYTYPE \/
        getShapeType shape = CAPSULE_SHAPE_PROXYTYPE -> r = true) /\
       (getShapeType shape = TRIANGLE_MESH_SHAPE_PROXYTYPE \/
        getShapeType shape = TERRAIN_SHAPE_PROXYTYPE -> r = false)) /\
  (_shape b = None -> supportsConstraints b = ([], Fault NullDereference)).
Proof.
  split.
  - intros shape Hs. unfold supportsConstraints. rewrite Hs. simpl deref.
    rewrite bind_ret_l. eexists. split; [reflexivity |].
    destruct (getShapeType shape); simpl; repeat split; intros; try tauto;
      try congruence; try (intuition congruence).
  - intros Hs. unfold supportsConstraints. rewrite Hs. reflexivity.
Qed.

End HeightQueries.

(** ** Forces *)

Section Forces.
Context `{PA : PhysicsAPI}.


End Forces.

(** ** Heightfield construction *)

Lemma store_length {A} (data : list A) (i : Z) (v : A) (tr : list event) (data' : list A) :
  store data i v = (tr, Ok data') -> length data' = length data.
Proof.
  unfold store. destruct (_ && _); [| discriminate].
  intros E. inversion E; subst. apply length_insert.
Qed.

Lemma for_loop_from_inv {S} (P : S -> Prop) (body : Z -> S -> M S) :
  (forall j s t s', P s -> body j s = (t, Ok s') -> P s') ->
  forall n i s tr s', P s -> for_loop_from n i body s = (tr, Ok s') -> P s'.
Proof.
  intros Hbody. induction n as [| n IH]; intros i s tr s' Hs E; simpl in E.
  - inversion E; subst. exact Hs.
  - apply bind_Ok_inv in E. destruct E as (t1 & s1 & t2 & E1 & E2 & _).
    eapply IH; [| exact E2]. eapply Hbody; eauto.
Qed.

Lemma heightfieldGrid_length (data : list Q) (W H sizeWidth sizeHeight : Z)
    (tr : list event) (grid : list Q) :
  heightfieldGrid data W H sizeWidth sizeHeight = (tr, Ok grid) ->
  length grid = Z.to_nat (umul (uadd sizeWidth 1) (uadd sizeHeight 1)).
Proof.
  unfold heightfieldGrid, for_loop. intros E.
  eapply (for_loop_from_inv
            (fun g => length g = Z.to_nat (umul (uadd sizeWidth 1) (uadd sizeHeight 1))))
    in E; [exact E | | apply length_replicate].
  intros row g t g' Hg Erow.
  eapply (for_loop_from_inv
            (fun g => length g = Z.to_nat (umul (uadd sizeWidth 1) (uadd sizeHeight 1))))
    in Erow; [exact Erow | | exact Hg].
  intros col g1 t1 g1' Hg1 Ecol.
  apply bind_Ok_inv in Ecol. destruct Ecol as (? & h & ? & _ & Est & _).
  apply store_length in Est. congruence.
Qed.

Lemma Qfloor_eq_ceiling (q : Q) :
  Qfloor q = Qceiling q <-> (inject_Z (Qfloor q) == q)%Q.
Proof.
  split.
  - intros E. apply Qle_antisym; [apply Qfloor_le |].
    rewrite E. apply Qle_ceiling.
  - intros E. rewrite <- E at 2. rewrite Qceiling_Z. reflexivity.
Qed.

Section Construction.
Context `{PA : PhysicsAPI}.

(** C1, as the code has it: for a bounding box of width and length in
    [[0, 2^32 - 1)], the heightfield built from an image has
    [floor(width) + 1] columns and [floor(length) + 1] rows (the
    conversions to [unsigned int] truncate), its buffer holds columns
    times rows samples, and the counts are [ceil(width) + 1] and
    [ceil(length) + 1] exactly when width and length are whole numbers. *)
Theorem fromImage_grid_dimensions (node : Node) (image : Image)
    (mass friction restitution linearDamping angularDamping : Q)
    (mesh : Mesh) (tr : list event) (b : PhysicsRigidBody) :
  getMesh node = Some mesh ->
  let box := getBoundingBox mesh in
  let width := (vx (box_max box) - vx (box_min box))%Q in
  let length := (vz (box_max box) - vz (box_min box))%Q in
  (0 <= width)%Q -> (width < inject_Z (UINT_MODULUS - 1))%Q ->
  (0 <= length)%Q -> (length < inject_Z (UINT_MODULUS - 1))%Q ->
  PhysicsRigidBody_fromImage node image mass friction restitution
    linearDamping angularDamping = (tr, Ok b) ->
  _width b = Qfloor width + 1 /\
  _height b = Qfloor length + 1 /\
  (exists grid, _heightfieldData b = Some grid /\
                Z.of_nat (List.length grid) = uint (_width b * _height b)) /\
  (_width b = Qceiling width + 1 <-> (inject_Z (Qfloor width) == width)%Q) /\
  (_height b = Qceiling length + 1 <-> (inject_Z (Qfloor length) == length)%Q).
Proof.
  intros Hmesh box width length Hw0 Hw1 Hl0 Hl1 E.
  assert (Hw1' : (width < inject_Z UINT_MODULUS)%Q).
  { eapply Qlt_trans; [exact Hw1 |]. rewrite <- Zlt_Qlt. lia. }
  assert (Hl1' : (length < inject_Z UINT_MODULUS)%Q).
  { eapply Qlt_trans; [exact Hl1 |]. rewrite <- Zlt_Qlt. lia. }
  pose proof (Qfloor_nonneg width Hw0) as Hfw0.
  pose proof (Qfloor_nonneg length Hl0) as Hfl0.
  pose proof (Qfloor_lt_Z width _ Hw1) as Hfw1.
  pose proof (Qfloor_lt_Z length _ Hl1) as Hfl1.
  unfold PhysicsRigidBody_fromImage in E. rewrite Hmesh in E.
  simpl deref in E. rewrite bind_ret_l in E. cbv zeta in E.
  apply bind_Ok_inv in E. destruct E as (t1 & data & t2 & _ & E & _).
  fold box in E. fold width length in E. clearbody width length.
  rewrite (float_to_uint_floor width Hw0 Hw1'), bind_ret_l in E.
  rewrite (float_to_uint_floor length Hl0 Hl1'), bind_ret_l in E.
  apply bind_Ok_inv in E. destruct E as (t3 & grid & t4 & Egrid & E & _).
  apply bind_Ok_inv in E. destruct E as (t5 & rb & t6 & _ & E & _).
  apply bind_Ok_inv in E. destruct E as (t7 & ? & t8 & _ & E & _).
  apply bind_Ok_inv in E. destruct E as (t9 & ? & t10 & _ & E & _).
  unfold ret in E. injection E as _ <-. cbn [_width _height _heightfieldData].
  apply heightfieldGrid_length in Egrid.
  assert (Hcw : uadd (Qfloor width) 1 = Qfloor width + 1).
  { unfold uadd. apply uint_small. lia. }
  assert (Hch : uadd (Qfloor length) 1 = Qfloor length + 1).
  { unfold uadd. apply uint_small. lia. }
  rewrite Hcw, Hch in *.
  split; [reflexivity |]. split; [reflexivity |]. split.
  - exists grid. split; [reflexivity |]. rewrite Egrid. unfold umul.
    apply Z2Nat.id. unfold uint. apply Z.mod_pos_bound. reflexivity.
  - split.
    + rewrite <- Qfloor_eq_ceiling. lia.
    + rewrite <- Qfloor_eq_ceiling. lia.
Qed.

End Construction.

Section ConstructionExamples.
Import Sample.

Lemma fromImage_grid_dimensions_witness :
  exists tr b,
    PhysicsRigidBody_fromImage (terrainNode (5 # 2) 1) image2x2 0 0 0 0 0 = (tr, Ok b) /\
    _width b = Qfloor ((5 # 2) - 0) + 1 /\
    _height b = Qfloor (1 - 0) + 1.
Proof.
  assert (E : exists tr b,
             PhysicsRigidBody_fromImage (terrainNode (5 # 2) 1) image2x2 0 0 0 0 0
             = (tr, Ok b)) by (eexists _, _; vm_compute; reflexivity).
  destruct E as (tr & b & E). exists tr, b. split; [exact E |].
  assert (H0 : (0 <= (5 # 2) - 0)%Q) by (vm_compute; discriminate).
  assert (H1 : ((5 # 2) - 0 < inject_Z (UINT_MODULUS - 1))%Q) by (vm_compute; reflexivity).
  assert (H2 : (0 <= 1 - 0)%Q) by (vm_compute; discriminate).
  assert (H3 : (1 - 0 < inject_Z (UINT_MODULUS - 1))%Q) by (vm_compute; reflexivity).
  pose proof (fromImage_grid_dimensions (terrainNode (5 # 2) 1) image2x2 0 0 0 0 0
                _ tr b eq_refl H0 H1 H2 H3 E) as (Hw & Hh & _).
  split; [exact Hw | exact Hh].
Defined.

(** C1 as stated fails: a bounding box 2.5 wide gives a grid of 3 columns,
    not [ceil 2.5 + 1 = 4]. *)
Lemma fromImage_columns_not_ceiling :
  exists tr b,
    PhysicsRigidBody_fromImage (terrainNode (5 # 2) 1) image2x2 0 0 0 0 0 = (tr, Ok b) /\
    _width b = 3 /\
    Qceiling ((5 # 2) - 0) + 1 = 4 /\
    _width b <> Qceiling ((5 # 2) - 0) + 1.
Proof.
  eexists _, _. split; [vm_compute; reflexivity |].
  split; [reflexivity |]. split; [reflexivity |]. vm_compute. discriminate.
Qed.

(** C2 fails on the code: in the image of 3 columns and 2 rows, the height
    stored for pixel [(0, 1)] (offset [0 + 1*3] of [data]) is computed from
    pixel [(2, 0)], of channels 30, and is 90, while the channels of pixel
    [(0, 1)] are 40 and give 120.  The source offset in the code is
    [x + y * getHeight()], the destination offset [x + y * getWidth()]. *)
Theorem pixelHeights_reads_other_pixel :
  exists data h s,
    pixelHeights image3x2 3 0 768 = ([], Ok data) /\
    data !! Z.to_nat (0 + 1 * 3) = Some h /\
    specPixelHeight image3x2 3 0 768 0 1 = Some s /\
    (h == 90)%Q /\ (s == 120)%Q /\ ~ (h == s)%Q.
Proof.
  eexists _, _, _. split; [vm_compute; reflexivity |].
  split; [reflexivity |]. split; [vm_compute; reflexivity |].
  split; [reflexivity |]. split; [reflexivity |]. vm_compute. discriminate.
Qed.

(** With more rows than columns the same offset leaves the pixel buffer. *)
Lemma pixelHeights_tall_image_faults :
  pixelHeights (greyImage 2 3 [1; 2; 3; 4; 5; 6]) 3 0 768 = ([], Fault OutOfBounds).
Proof. vm_compute. reflexivity. Qed.

End ConstructionExamples.

(** ** Declarative construction *)

(** C4 fails on the code: with [type = HEIGHTFIELD], no [image] and a
    [gravity] key, [create] logs the warning, leaves [body] null and then
    calls [body->setGravity], a null dereference, for every node and every
    implementation of the collaborators. *)
Theorem create_heightfield_without_image_faults `{PA : PhysicsAPI} `{LA : LoaderAPI}
    (node : Node) (gravity : string) :
  create node (Some (Sample.heightfieldWithoutImage gravity))
  = ([Warn WARN_IMAGE], Fault NullDereference).
Proof. reflexivity. Qed.

(** Without a key that makes [create] touch the body, the null body is
    returned. *)
Lemma create_heightfield_without_image_plain `{PA : PhysicsAPI} `{LA : LoaderAPI}
    (node : Node) (mass : string) :
  create node (Some (mkProperties "rigidbody" [("type", "HEIGHTFIELD"); ("mass", mass)]))
  = ([Warn WARN_IMAGE], Ok None).
Proof. reflexivity. Qed.

Section QueryExamples.
Import Sample.

(** C9 fails on the code: the heightfield built for a node one unit wide
    and long has 2 by 2 samples; at the world point [(0.5, 0.5)] the grid
    coordinates are [(2, 2)], which the validation admits, and
    [calculateHeight] then reads [data[2 + 2*2]] in a buffer of 4. *)
Theorem getHeight_boundary_out_of_bounds :
  exists tr b grid gx gy,
    PhysicsRigidBody_fromImage (terrainNode 1 1) image2x2 0 0 0 0 0 = (tr, Ok b) /\
    _width b = 2 /\ _height b = 2 /\
    _heightfieldData b = Some grid /\ length grid = 4%nat /\
    gridCoordinates (refreshInverse b) tt (1 # 2) (1 # 2) = (gx, gy) /\
    (gx == 2)%Q /\ (gy == 2)%Q /\
    outsideGrid (refreshInverse b) (gx, gy) = false /\
    getHeight b (1 # 2) (1 # 2) = ([Read 6], Fault OutOfBounds).
Proof.
  eexists _, _, _, _, _. split; [vm_compute; reflexivity |].
  do 4 (split; [reflexivity |]).
  split; [vm_compute; reflexivity |].
  repeat split; vm_compute; reflexivity.
Qed.

(** The same on the last row alone: grid coordinates [(0, 2)]. *)
Lemma getHeight_last_row_out_of_bounds :
  outcome (getHeight terrainBody (- (1 # 2)) (1 # 2)) = Fault OutOfBounds.
Proof. vm_compute. reflexivity. Qed.

Lemma getHeight_not_heightfield_witness :
  getHeight boxBody 3 4 = ([Warn WARN_NOT_HEIGHTFIELD], Ok (boxBody, 0%Q)).
Proof.
  apply (proj1 (getHeight_not_heightfield boxBody 3 4) BOX_SHAPE_PROXYTYPE eq_refl).
  simpl. discriminate.
Defined.

(** C5 as stated fails: the body that [create] builds from a block
    without a [type] key (type [SHAPE_NONE], mass 0) has no collision
    shape, so its shape is not a heightfield shape; [getHeight] on it
    returns no value, it dereferences the null shape. *)
Lemma getHeight_without_shape :
  create (terrainNode 1 1) (Some Inputs.emptyBlock)
  = ([AddCollisionObject], Ok (Some (newBody None [] (terrainNode 1 1)))) /\
  _shape (newBody None [] (terrainNode 1 1)) = None /\
  getHeight (newBody None [] (terrainNode 1 1)) 3 4 = ([], Fault NullDereference).
Proof. split; [vm_compute; reflexivity | split; reflexivity]. Qed.


Lemma supportsConstraints_iff_witness :
  exists r, supportsConstraints boxBody = ret r /\ r = true.
Proof.
  destruct (proj1 (supportsConstraints_iff boxBody) BOX_SHAPE_PROXYTYPE eq_refl)
    as (r & Hr & _ & Hbox & _).
  exists r. split; [exact Hr |]. apply Hbox. left. reflexivity.
Defined.

(** C10 as stated fails: on the body that [create] builds from a block
    without a [type] key, which has no collision shape,
    [supportsConstraints] returns neither true nor false, it dereferences
    the null shape. *)
Lemma supportsConstraints_without_shape :
  create (terrainNode 1 1) (Some Inputs.emptyBlock)
  = ([AddCollisionObject], Ok (Some (newBody None [] (terrainNode 1 1)))) /\
  _shape (newBody None [] (terrainNode 1 1)) = None /\
  supportsConstraints (newBody None [] (terrainNode 1 1)) = ([], Fault NullDereference).
Proof. split; [vm_compute; reflexivity | split; reflexivity]. Qed.


End QueryExamples.

(** * Further properties *)

(** ** The sampler inside the grid *)

Lemma load_cell (data : list Q) (x y w h : Z) :
  Z.of_nat (length data) = w * h -> w * h < UINT_MODULUS ->
  0 <= x < w -> 0 <= y < h ->
  exists d, data !! Z.to_nat (x + y * w) = Some d /\
            load data (cell x y w) = ([Read (x + y * w)], Ok d) /\
            0 <= x + y * w < w * h.
Proof.
  intros Hlen Hwh Hx Hy.
  destruct (cell_small x y w h Hx Hy Hwh) as [Hc Hr].
  destruct (lookup_lt_is_Some_2 data (Z.to_nat (x + y * w))) as [d Hd]; [lia |].
  exists d. split; [exact Hd |]. split; [| exact Hr].
  rewrite Hc. unfold load, fetch, emit, bind.
  destruct (Z.leb_spec 0 (x + y * w)); [| lia]. rewrite Hd. reflexivity.
Qed.

Lemma Qfrac_range (q : Q) :
  (0 <= q - inject_Z (Qfloor q))%Q /\ (q - inject_Z (Qfloor q) < 1)%Q.
Proof.
  pose proof (Qfloor_le q) as H1. pose proof (Qlt_floor q) as H2.
  rewrite inject_Z_plus in H2. change (inject_Z 1) with 1%Q in H2.
  split; lra.
Qed.

(** Inside the grid the sampler returns a blend of four samples of the
    buffer (a corner repeated on the last row and column), with fractions
    in [[0, 1)], and reads inside the buffer only. *)
Lemma calculateHeight_inside_blend (data : list Q) (w h : Z) (x y : Q) :
  Z.of_nat (length data) = w * h -> w * h < UINT_MODULUS ->
  (0 <= x)%Q -> (x < inject_Z w)%Q -> (0 <= y)%Q -> (y < inject_Z h)%Q ->
  exists tr v a b c d fx fy,
    calculateHeight data w h x y = (tr, Ok v) /\
    readsWithin (w * h) tr /\
    a ∈ data /\ b ∈ data /\ c ∈ data /\ d ∈ data /\
    (0 <= fx)%Q /\ (fx <= 1)%Q /\ (0 <= fy)%Q /\ (fy <= 1)%Q /\
    (v == a * (1 - fx) * (1 - fy) + b * (1 - fx) * fy + c * fx * fy + d * fx * (1 - fy))%Q.
Proof.
  intros Hlen Hwh Hx0 Hxw Hy0 Hyh.
  pose proof (Qfloor_nonneg x Hx0) as Hfx0.
  pose proof (Qfloor_nonneg y Hy0) as Hfy0.
  pose proof (Qfloor_lt_Z x w Hxw) as Hfxw.
  pose proof (Qfloor_lt_Z y h Hyh) as Hfyh.
  assert (Hw : w < UINT_MODULUS) by nia.
  assert (Hh : h < UINT_MODULUS) by nia.
  assert (Hx1 : (x < inject_Z (UINT_MODULUS - 1))%Q).
  { eapply Qlt_le_trans; [exact Hxw |]. rewrite <- Zle_Qle. lia. }
  assert (Hy1 : (y < inject_Z (UINT_MODULUS - 1))%Q).
  { eapply Qlt_le_trans; [exact Hyh |]. rewrite <- Zle_Qle. lia. }
  rewrite (calculateHeight_floor data w h x y Hx0 Hx1 Hy0 Hy1). cbv zeta.
  destruct (Qfrac_range x) as [Fx0 Fx1]. destruct (Qfrac_range y) as [Fy0 Fy1].
  set (x1 := Qfloor x) in *. set (y1 := Qfloor y) in *.
  set (fx := (x - inject_Z x1)%Q) in *. set (fy := (y - inject_Z y1)%Q) in *.
  destruct (load_cell data x1 y1 w h Hlen Hwh ltac:(lia) ltac:(lia)) as (a & Ha & La & Ra).
  pose proof (list_elem_of_lookup_2 _ _ _ Ha) as Ia.
  assert (R1 : forall i, 0 <= i < w * h -> exists j, Read i = Read j /\ 0 <= j < w * h)
    by (intros i Hi; exists i; auto).
  destruct (Z.leb_spec w (x1 + 1)) as [Hxe | Hxi];
    destruct (Z.leb_spec h (y1 + 1)) as [Hye | Hyi]; simpl andb; cbv iota.
  - exists [Read (x1 + y1 * w)], a, a, a, a, a, 0%Q, 0%Q.
    split; [exact La |]. split; [repeat constructor; auto |].
    repeat (split; [first [exact Ia | lra] |]). ring.
  - destruct (load_cell data x1 (y1 + 1) w h Hlen Hwh ltac:(lia) ltac:(lia))
      as (b & Hb & Lb & Rb).
    pose proof (list_elem_of_lookup_2 _ _ _ Hb) as Ib.
    rewrite La, Lb.
    exists [Read (x1 + y1 * w); Read (x1 + (y1 + 1) * w)], (a * (1 - fy) + b * fy)%Q,
      a, b, a, a, 0%Q, fy.
    split; [reflexivity |]. split; [repeat constructor; auto |].
    repeat (split; [first [exact Ia | exact Ib | lra] |]). ring.
  - destruct (load_cell data (x1 + 1) y1 w h Hlen Hwh ltac:(lia) ltac:(lia))
      as (b & Hb & Lb & Rb).
    pose proof (list_elem_of_lookup_2 _ _ _ Hb) as Ib.
    rewrite La, Lb.
    exists [Read (x1 + y1 * w); Read (x1 + 1 + y1 * w)], (a * (1 - fx) + b * fx)%Q,
      a, a, a, b, fx, 0%Q.
    split; [reflexivity |]. split; [repeat constructor; auto |].
    repeat (split; [first [exact Ia | exact Ib | lra] |]). ring.
  - destruct (load_cell data x1 (y1 + 1) w h Hlen Hwh ltac:(lia) ltac:(lia))
      as (b & Hb & Lb & Rb).
    destruct (load_cell data (x1 + 1) (y1 + 1) w h Hlen Hwh ltac:(lia) ltac:(lia))
      as (c & Hc & Lc & Rc).
    destruct (load_cell data (x1 + 1) y1 w h Hlen Hwh ltac:(lia) ltac:(lia))
      as (d & Hd & Ld & Rd).
    pose proof (list_elem_of_lookup_2 _ _ _ Hb) as Ib.
    pose proof (list_elem_of_lookup_2 _ _ _ Hc) as Ic.
    pose proof (list_elem_of_lookup_2 _ _ _ Hd) as Id.
    rewrite La, Lb, Lc, Ld.
    eexists _, _, a, b, c, d, fx, fy.
    split; [reflexivity |]. split; [repeat constructor; auto |].
    repeat (split; [first [exact Ia | exact Ib | exact Ic | exact Id | lra] |]).
    reflexivity.
Qed.

(** [calculateHeight], inside the grid, reads inside the buffer: for a
    buffer of [w * h] samples and [0 <= x < w], [0 <= y < h] it returns a
    value and every offset it reads is below [w * h]. *)
Theorem calculateHeight_inside_safe (data : list Q) (w h : Z) (x y : Q) :
  Z.of_nat (length data) = w * h -> w * h < UINT_MODULUS ->
  (0 <= x)%Q -> (x < inject_Z w)%Q -> (0 <= y)%Q -> (y < inject_Z h)%Q ->
  exists tr v, calculateHeight data w h x y = (tr, Ok v) /\ readsWithin (w * h) tr.
Proof.
  intros Hlen Hwh Hx0 Hxw Hy0 Hyh.
  destruct (calculateHeight_inside_blend data w h x y Hlen Hwh Hx0 Hxw Hy0 Hyh)
    as (tr & v & _ & _ & _ & _ & _ & _ & E & R & _).
  exists tr, v. auto.
Qed.

Lemma calculateHeight_inside_safe_witness :
  exists tr v,
    calculateHeight [1%Q; 2%Q; 3%Q; 4%Q; 5%Q; 6%Q] 3 2 (5 # 2) (1 # 3) = (tr, Ok v) /\
    readsWithin (3 * 2) tr.
Proof.
  apply (calculateHeight_inside_safe [1%Q; 2%Q; 3%Q; 4%Q; 5%Q; 6%Q] 3 2 (5 # 2) (1 # 3));
    vm_compute; first [reflexivity | discriminate].
Defined.

(** ** Height queries inside the grid, and the inverse cache *)

Section HeightQueriesInside.
Context `{PA : PhysicsAPI}.

Lemma Qltb_false (a b : Q) : (b <= a)%Q -> Qltb a b = false.
Proof. intros Hle. unfold Qltb. apply negb_false_iff, Qle_bool_iff, Hle. Qed.

Lemma refreshInverse_idempotent (b : PhysicsRigidBody) :
  refreshInverse (refreshInverse b) = refreshInverse b.
Proof.
  unfold refreshInverse. destruct (_inverseIsDirty b) eqn:Hd; simpl.
  - reflexivity.
  - rewrite Hd. reflexivity.
Qed.

(** The body a query returns: the input body, or the input body with its
    inverse refreshed when the shape is a heightfield. *)
Lemma getHeight_state (b b' : PhysicsRigidBody) (x y h : Q) (tr : list event) :
  getHeight b x y = (tr, Ok (b', h)) ->
  exists shape, _shape b = Some shape /\
    ((getShapeType shape <> TERRAIN_SHAPE_PROXYTYPE /\ b' = b) \/
     (getShapeType shape = TERRAIN_SHAPE_PROXYTYPE /\ b' = refreshInverse b)).
Proof.
  intros E. unfold getHeight in E.
  destruct (_shape b) as [shape |]; [| discriminate].
  simpl deref in E. rewrite bind_ret_l in E. exists shape. split; [reflexivity |].
  destruct (decide (getShapeType shape = TERRAIN_SHAPE_PROXYTYPE)) as [Ht | Ht].
  - right. split; [exact Ht |].
    rewrite (bool_decide_eq_true_2 _ Ht) in E. simpl negb in E. cbv iota in E.
    apply bind_Ok_inv in E. destruct E as (? & inv & ? & _ & E & _).
    destruct (outsideGrid _ _).
    + apply bind_Ok_inv in E. destruct E as (? & ? & ? & _ & E & _).
      unfold ret in E. injection E as _ <- _. reflexivity.
    + apply bind_Ok_inv in E. destruct E as (? & data & ? & _ & E & _).
      apply bind_Ok_inv in E. destruct E as (? & v & ? & _ & E & _).
      unfold ret in E. injection E as _ <- _. reflexivity.
  - left. split; [exact Ht |].
    rewrite (bool_decide_eq_false_2 _ Ht) in E. simpl negb in E. cbv iota in E.
    apply bind_Ok_inv in E. destruct E as (? & ? & ? & _ & E & _).
    unfold ret in E. injection E as _ <- _. reflexivity.
Qed.

(** A query changes nothing but the inverse cache, and a query on a
    heightfield leaves the cache clean: shape, Bullet body, node, buffer
    and dimensions are those of the input body. *)
Theorem getHeight_frame (b b' : PhysicsRigidBody) (x y h : Q) (tr : list event) :
  getHeight b x y = (tr, Ok (b', h)) ->
  b' = set_inverse b (_inverse b') (_inverseIsDirty b') /\
  (forall shape, _shape b = Some shape ->
     getShapeType shape = TERRAIN_SHAPE_PROXYTYPE -> _inverseIsDirty b' = false).
Proof.
  intros E. destruct (getHeight_state b b' x y h tr E) as (shape & Hs & [[Ht ->] | [Ht ->]]).
  - split; [destruct b; reflexivity |]. intros s Hs' Ht'. congruence.
  - split.
    + unfold refreshInverse. destruct b as [? ? ? ? ? ? ? ? ? dirty ? ?].
      destruct dirty; reflexivity.
    + intros _ _ _. unfold refreshInverse.
      destruct (_inverseIsDirty b) eqn:Hd; simpl; auto.
Qed.

(** The inverse is computed once per transform change: a second query,
    with no [transformChanged] in between, returns the body unchanged. *)
Theorem getHeight_twice (b b1 b2 : PhysicsRigidBody) (x y h1 x' y' h2 : Q)
    (tr tr' : list event) :
  getHeight b x y = (tr, Ok (b1, h1)) ->
  getHeight b1 x' y' = (tr', Ok (b2, h2)) ->
  b2 = b1.
Proof.
  intros E1 E2.
  destruct (getHeight_state _ _ _ _ _ _ E1) as (s1 & Hs1 & [[Ht1 ->] | [Ht1 ->]]);
    destruct (getHeight_state _ _ _ _ _ _ E2) as (s2 & Hs2 & [[Ht2 ->] | [Ht2 ->]]);
    try reflexivity.
  - congruence.
  - apply refreshInverse_idempotent.
Qed.

(** After [transformChanged] the next query on a heightfield inverts the
    node's world matrix again, into the matrix already allocated. *)
Theorem getHeight_after_transformChanged (b b' : PhysicsRigidBody) (shape : btCollisionShape)
    (x y h : Q) (tr : list event) :
  _shape b = Some shape -> getShapeType shape = TERRAIN_SHAPE_PROXYTYPE ->
  getHeight (transformChanged b) x y = (tr, Ok (b', h)) ->
  _inverse b' =
    Some (Matrix_invert (getWorldMatrix (_node b))
            (match _inverse b with Some m => m | None => Matrix_new end)) /\
  _inverseIsDirty b' = false.
Proof.
  intros Hs Ht E.
  destruct (getHeight_state _ _ _ _ _ _ E) as (s & Hs' & [[Ht' ->] | [Ht' ->]]).
  - simpl in Hs'. congruence.
  - split; reflexivity.
Qed.

(** Inside the grid a query on a heightfield succeeds: on a grid of at
    least 2 by 2 samples (the rescaling divides by [width - 1] and
    [height - 1]) whose extents a [float] holds unrounded, for grid
    coordinates [0 <= gx < width], [0 <= gy < height] and a buffer of
    [width * height] samples, [getHeight] returns a height together with
    the body whose inverse is refreshed, reads inside the buffer only and
    logs nothing else. *)
Theorem getHeight_inside (b : PhysicsRigidBody) (shape : btCollisionShape)
    (data : list Q) (x y : Q) :
  _shape b = Some shape ->
  getShapeType shape = TERRAIN_SHAPE_PROXYTYPE ->
  inverseCached b ->
  _heightfieldData b = Some data ->
  Z.of_nat (length data) = _width b * _height b ->
  2 <= _width b <= FLOAT_EXACT ->
  2 <= _height b <= FLOAT_EXACT ->
  _width b * _height b < UINT_MODULUS ->
  exists inv,
    _inverse (refreshInverse b) = Some inv /\
    forall gx gy,
      gridCoordinates (refreshInverse b) inv x y = (gx, gy) ->
      (0 <= gx)%Q -> (gx < to_float (_width b))%Q ->
      (0 <= gy)%Q -> (gy < to_float (_height b))%Q ->
      exists tr v,
        getHeight b x y = (tr, Ok (refreshInverse b, v)) /\
        readsWithin (_width b * _height b) tr.
Proof.
  intros Hs Ht Hc Hd Hlen _ _ Hwh.
  destruct (refreshInverse_cached b Hc) as [inv Hinv].
  exists inv. split; [exact Hinv |].
  intros gx gy Hg Hx0 Hxw Hy0 Hyh.
  destruct (refreshInverse_shape b) as (_ & Ew & Eh & Ed).
  destruct (calculateHeight_inside_blend data (_width b) (_height b) gx gy
              Hlen Hwh Hx0 Hxw Hy0 Hyh)
    as (tr & v & _ & _ & _ & _ & _ & _ & E & R & _).
  exists tr, v. split; [| exact R].
  unfold getHeight. rewrite Hs. simpl deref. rewrite bind_ret_l.
  rewrite bool_decide_eq_true_2 by exact Ht. simpl negb. cbv iota.
  rewrite Hinv. simpl deref. rewrite bind_ret_l. cbv zeta. rewrite Hg.
  assert (Ho : outsideGrid (refreshInverse b) (gx, gy) = false).
  { unfold outsideGrid, Qgtb. simpl fst. simpl snd. rewrite Ew, Eh.
    rewrite (Qltb_false gx 0 Hx0), (Qltb_false gy 0 Hy0).
    rewrite (Qltb_false _ gx (Qlt_le_weak _ _ Hxw)).
    rewrite (Qltb_false _ gy (Qlt_le_weak _ _ Hyh)). reflexivity. }
  rewrite Ho, Ed, Hd. simpl deref. rewrite bind_ret_l.
  simpl fst. simpl snd. rewrite Ew, Eh, E.
  unfold bind, ret. rewrite app_nil_r. reflexivity.
Qed.

End HeightQueriesInside.

(** ** Loops *)

Lemma for_loop_from_ind {S} (P : Z -> S -> Prop) (body : Z -> S -> M S) :
  forall n i s tr s',
    (forall j s t s', i <= j < i + Z.of_nat n -> P j s ->
                      body j s = (t, Ok s') -> P (j + 1) s') ->
    P i s -> for_loop_from n i body s = (tr, Ok s') -> P (i + Z.of_nat n) s'.
Proof.
  induction n as [| n IH]; intros i s tr s' Hbody Hs E; simpl in E.
  - unfold ret in E. injection E as _ <-. replace (i + Z.of_nat 0) with i by lia. exact Hs.
  - apply bind_Ok_inv in E. destruct E as (t1 & s1 & t2 & E1 & E2 & _).
    replace (i + Z.of_nat (Datatypes.S n)) with (i + 1 + Z.of_nat n) by lia.
    eapply IH; [| | exact E2].
    + intros j s0 t s0' Hj. apply Hbody. lia.
    + eapply Hbody; [| exact Hs | exact E1]. lia.
Qed.

Lemma for_loop_from_progress {S} (P : Z -> S -> Prop) (body : Z -> S -> M S) :
  forall n i s,
    (forall j s, i <= j < i + Z.of_nat n -> P j s ->
                 exists t s', body j s = (t, Ok s') /\ P (j + 1) s') ->
    P i s ->
    exists tr s', for_loop_from n i body s = (tr, Ok s') /\ P (i + Z.of_nat n) s'.
Proof.
  induction n as [| n IH]; intros i s Hbody Hs; simpl.
  - exists [], s. split; [reflexivity |]. replace (i + Z.of_nat 0) with i by lia. exact Hs.
  - destruct (Hbody i s ltac:(lia) Hs) as (t1 & s1 & E1 & Hs1).
    destruct (IH (i + 1) s1) as (t2 & s2 & E2 & Hs2); [| exact Hs1 |].
    + intros j s0 Hj. apply Hbody. lia.
    + exists (t1 ++ t2), s2. rewrite E1. unfold bind. rewrite E2.
      split; [reflexivity |].
      replace (i + Z.of_nat (Datatypes.S n)) with (i + 1 + Z.of_nat n) by lia. exact Hs2.
Qed.

Lemma for_loop_from_fault {S} (F : fault -> Prop) (body : Z -> S -> M S) :
  (forall j s t f, body j s = (t, Fault f) -> F f) ->
  forall n i s tr f, for_loop_from n i body s = (tr, Fault f) -> F f.
Proof.
  intros Hbody. induction n as [| n IH]; intros i s tr f E; simpl in E.
  - discriminate.
  - destruct (body i s) as [t1 [s1 | f1]] eqn:E1; simpl in E.
    + destruct (for_loop_from n (i + 1) body s1) as [t2 r2] eqn:E2.
      injection E as _ ->. eapply IH. exact E2.
    + injection E as _ <-. eapply Hbody. exact E1.
Qed.

Lemma store_Ok_inv {A} (data : list A) (i : Z) (v : A) (tr : list event) (data' : list A) :
  store data i v = (tr, Ok data') ->
  0 <= i < Z.of_nat (length data) /\ data' = <[Z.to_nat i := v]> data.
Proof.
  unfold store.
  destruct (Z.leb_spec 0 i); destruct (Z.ltb_spec i (Z.of_nat (length data)));
    simpl; try discriminate.
  intros E. injection E as _ <-. split; [lia | reflexivity].
Qed.

Lemma store_Ok {A} (data : list A) (i : Z) (v : A) :
  0 <= i < Z.of_nat (length data) -> store data i v = ([], Ok (<[Z.to_nat i := v]> data)).
Proof.
  intros Hi. unfold store.
  destruct (Z.leb_spec 0 i); [| lia].
  destruct (Z.ltb_spec i (Z.of_nat (length data))); [| lia]. reflexivity.
Qed.

Section Fill.
Context {A : Type} (n m : Z) (idx : Z -> Z -> Z) (val : Z -> Z -> M A).
Hypothesis idx_inj : forall i j i' j',
  0 <= i < n -> 0 <= j < m -> 0 <= i' < n -> 0 <= j' < m ->
  idx i j = idx i' j' -> i = i' /\ j = j'.

Lemma filled_store (a : list A) (i j i' j' : Z) (v : A) :
  0 <= i < n -> 0 <= j < m -> 0 <= i' < n -> 0 <= j' < m ->
  (i, j) <> (i', j') -> 0 <= idx i j ->
  filled idx val a i' j' -> filled idx val (<[Z.to_nat (idx i j) := v]> a) i' j'.
Proof.
  intros Hi Hj Hi' Hj' Hne H0 (v' & H0' & Hl & Hv).
  exists v'. split; [exact H0' |]. split; [| exact Hv].
  rewrite list_lookup_insert_ne; [exact Hl |].
  intros E. apply Z2Nat.inj in E; [| lia | lia].
  destruct (idx_inj i j i' j' Hi Hj Hi' Hj' E). congruence.
Qed.

Lemma fill_inner (i : Z) (N : nat) (a a' : list A) (tr : list event) :
  0 <= i < n -> 0 <= m ->
  length a = N ->
  (forall i' j', 0 <= i' < i -> 0 <= j' < m -> filled idx val a i' j') ->
  for_loop m (fun j a => h <- val i j ;; store a (idx i j) h) a = (tr, Ok a') ->
  length a' = N /\
  (forall i' j', 0 <= i' < i + 1 -> 0 <= j' < m -> filled idx val a' i' j').
Proof.
  intros Hi Hm Hlen Hprev E. unfold for_loop in E.
  apply (for_loop_from_ind
           (fun j a => length a = N /\
                       (forall i' j', 0 <= i' < i -> 0 <= j' < m -> filled idx val a i' j') /\
                       (forall j', 0 <= j' < j -> filled idx val a i j'))) in E.
  - rewrite Z2Nat.id in E by lia. destruct E as (Hl & Hp & Hc).
    split; [exact Hl |]. intros i' j' Hi' Hj'.
    destruct (Z.eq_dec i' i) as [-> | Hne]; [apply Hc; lia | apply Hp; lia].
  - intros j s t s' Hj (Hl & Hp & Hc) Eb. rewrite Z2Nat.id in Hj by lia.
    apply bind_Ok_inv in Eb. destruct Eb as (t1 & h & t2 & Ev & Es & _).
    apply store_Ok_inv in Es. destruct Es as [Hr ->].
    split; [rewrite length_insert; exact Hl |]. split.
    + intros i' j' Hi' Hj'. apply filled_store; try lia; [| apply Hp; lia].
      intros [= -> ->]; lia.
    + intros j' Hj'. destruct (Z.eq_dec j' j) as [-> | Hne].
      * exists h. split; [lia |]. split.
        -- apply list_lookup_insert_eq. lia.
        -- rewrite Ev. reflexivity.
      * apply filled_store; try lia; [| apply Hc; lia].
        intros [= ->]; lia.
  - split; [exact Hlen |]. split; [exact Hprev |]. intros j' Hj'. lia.
Qed.

(** When the loops complete, every cell [(i, j)] holds the value of
    [val i j], and the array has kept its length. *)
Lemma fill_content (a0 a : list A) (tr : list event) :
  0 <= n -> 0 <= m ->
  fill n m idx val a0 = (tr, Ok a) ->
  length a = length a0 /\
  forall i j, 0 <= i < n -> 0 <= j < m -> filled idx val a i j.
Proof.
  intros Hn Hm E. unfold fill, for_loop in E.
  apply (for_loop_from_ind
           (fun i a => length a = length a0 /\
                       (forall i' j', 0 <= i' < i -> 0 <= j' < m -> filled idx val a i' j'))) in E.
  - rewrite Z2Nat.id in E by lia. simpl in E. exact E.
  - intros i s t s' Hi (Hl & Hp) Eb. rewrite Z2Nat.id in Hi by lia.
    apply (fill_inner i (length a0) s s' t); auto; lia.
  - split; [reflexivity |]. intros i' j' Hi'. lia.
Qed.

(** The loops complete when every value is computed without a fault and
    every cell lies inside the array. *)
Lemma fill_progress (a0 : list A) :
  0 <= n -> 0 <= m ->
  (forall i j, 0 <= i < n -> 0 <= j < m -> exists t v, val i j = (t, Ok v)) ->
  (forall i j, 0 <= i < n -> 0 <= j < m -> 0 <= idx i j < Z.of_nat (length a0)) ->
  exists tr a, fill n m idx val a0 = (tr, Ok a).
Proof.
  intros Hn Hm Hval Hidx. unfold fill, for_loop.
  destruct (for_loop_from_progress
              (fun i a => length a = length a0)
              (fun i a => for_loop_from (Z.to_nat m) 0
                            (fun j a => h <- val i j ;; store a (idx i j) h) a)
              (Z.to_nat n) 0 a0) as (tr & a & E & _).
  - intros i s Hi Hl. rewrite Z2Nat.id in Hi by lia.
    destruct (for_loop_from_progress
                (fun j a => length a = length a0)
                (fun j a => h <- val i j ;; store a (idx i j) h)
                (Z.to_nat m) 0 s) as (t & s' & E & Hl').
    + intros j s0 Hj Hl0. rewrite Z2Nat.id in Hj by lia.
      destruct (Hval i j ltac:(lia) ltac:(lia)) as (t1 & v & Ev).
      exists (t1 ++ []), (<[Z.to_nat (idx i j) := v]> s0).
      rewrite Ev. unfold bind. rewrite store_Ok.
      * split; [reflexivity |]. rewrite length_insert. exact Hl0.
      * rewrite Hl0. apply Hidx; lia.
    + exact Hl.
    + exists t, s'. split; [exact E | exact Hl'].
  - reflexivity.
  - exists tr, a. exact E.
Qed.

End Fill.

Lemma fill_fault {A} (F : fault -> Prop) (n m : Z) (idx : Z -> Z -> Z)
    (val : Z -> Z -> M A) (a0 : list A) (tr : list event) (f : fault) :
  (forall i j t f, val i j = (t, Fault f) -> F f) -> F OutOfBounds ->
  fill n m idx val a0 = (tr, Fault f) -> F f.
Proof.
  intros Hval Hoob E. unfold fill, for_loop in E.
  eapply for_loop_from_fault; [| exact E].
  intros i s t f0 Ei. eapply for_loop_from_fault; [| exact Ei].
  intros j s0 t0 f1 Ej. unfold bind in Ej.
  destruct (val i j) as [t1 [v | f2]] eqn:Ev.
  - unfold store in Ej. destruct (_ && _); simpl in Ej; [discriminate |].
    injection Ej as _ <-. exact Hoob.
  - injection Ej as _ <-. eapply Hval. exact Ev.
Qed.

Lemma fetch_Ok_inv {A} (data : list A) (i : Z) (t : list event) (v : A) :
  fetch data i = (t, Ok v) -> 0 <= i /\ data !! Z.to_nat i = Some v /\ t = [].
Proof.
  unfold fetch. destruct (Z.leb_spec 0 i).
  - destruct (data !! Z.to_nat i) as [d |]; [| discriminate].
    intros E. injection E as <- <-. auto.
  - discriminate.
Qed.

Lemma fetch_Ok {A} (data : list A) (i : Z) (v : A) :
  0 <= i -> data !! Z.to_nat i = Some v -> fetch data i = ret v.
Proof.
  intros Hi Hv. unfold fetch. destruct (Z.leb_spec 0 i); [| lia]. rewrite Hv. reflexivity.
Qed.

Lemma fetch_fault {A} (data : list A) (i : Z) (t : list event) (f : fault) :
  fetch data i = (t, Fault f) -> f = OutOfBounds.
Proof.
  unfold fetch. destruct (if 0 <=? i then data !! Z.to_nat i else None); [discriminate |].
  intros E. injection E as _ <-. reflexivity.
Qed.

(** ** The pixel heights *)

Lemma pixelHeight_offsets (image : Image) (pixelSize x y : Z) :
  0 <= x -> 0 <= y -> 0 <= imageHeight image -> 0 <= pixelSize ->
  sourceOffset image pixelSize x y + 2 < UINT_MODULUS ->
  let p := umul (uadd x (umul y (imageHeight image))) pixelSize in
  uadd p 0 = sourceOffset image pixelSize x y /\
  uadd p 1 = sourceOffset image pixelSize x y + 1 /\
  uadd p 2 = sourceOffset image pixelSize x y + 2.
Proof.
  intros Hx Hy HH Hps Hp. unfold sourceOffset in *. cbv zeta.
  assert (0 <= y * imageHeight image) by nia.
  destruct (Z.eq_dec pixelSize 0) as [-> | Hne].
  - unfold uadd, umul. rewrite !Z.mul_0_r. simpl. repeat split; reflexivity.
  - assert (x + y * imageHeight image < UINT_MODULUS) by nia.
    unfold uadd, umul.
    rewrite (uint_small (y * imageHeight image)) by lia.
    rewrite (uint_small (x + y * imageHeight image)) by lia.
    rewrite (uint_small ((x + y * imageHeight image) * pixelSize)) by nia.
    repeat split; (rewrite uint_small by nia); lia.
Qed.

Lemma pixelHeight_Ok_inv (image : Image) (pixelSize : Z) (minHeight maxHeight : Q)
    (x y : Z) (t : list event) (v : Q) :
  0 <= x -> 0 <= y -> 0 <= imageHeight image -> 0 <= pixelSize ->
  sourceOffset image pixelSize x y + 2 < UINT_MODULUS ->
  pixelHeight image pixelSize minHeight maxHeight x y = (t, Ok v) ->
  exists r g b,
    getData image !! Z.to_nat (sourceOffset image pixelSize x y) = Some r /\
    getData image !! Z.to_nat (sourceOffset image pixelSize x y + 1) = Some g /\
    getData image !! Z.to_nat (sourceOffset image pixelSize x y + 2) = Some b /\
    v = channelHeight r g b minHeight maxHeight.
Proof.
  intros Hx Hy HH Hps Hp E. unfold pixelHeight in E.
  destruct (pixelHeight_offsets image pixelSize x y Hx Hy HH Hps Hp) as (E0 & E1 & E2).
  cbv zeta in E0, E1, E2. rewrite E0, E1, E2 in E.
  apply bind_Ok_inv in E. destruct E as (? & r & ? & Er & E & _).
  apply bind_Ok_inv in E. destruct E as (? & g & ? & Eg & E & _).
  apply bind_Ok_inv in E. destruct E as (? & b & ? & Eb & E & _).
  apply fetch_Ok_inv in Er, Eg, Eb.
  unfold ret in E. injection E as _ <-.
  exists r, g, b. intuition.
Qed.

Lemma pixelHeight_Ok (image : Image) (pixelSize : Z) (minHeight maxHeight : Q)
    (x y r g b : Z) :
  0 <= x -> 0 <= y -> 0 <= imageHeight image -> 0 <= pixelSize ->
  sourceOffset image pixelSize x y + 2 < UINT_MODULUS ->
  getData image !! Z.to_nat (sourceOffset image pixelSize x y) = Some r ->
  getData image !! Z.to_nat (sourceOffset image pixelSize x y + 1) = Some g ->
  getData image !! Z.to_nat (sourceOffset image pixelSize x y + 2) = Some b ->
  pixelHeight image pixelSize minHeight maxHeight x y
  = ([], Ok (channelHeight r g b minHeight maxHeight)).
Proof.
  intros Hx Hy HH Hps Hp Hr Hg Hb. unfold pixelHeight.
  destruct (pixelHeight_offsets image pixelSize x y Hx Hy HH Hps Hp) as (E0 & E1 & E2).
  cbv zeta in E0, E1, E2. rewrite E0, E1, E2.
  assert (0 <= sourceOffset image pixelSize x y) by (unfold sourceOffset; nia).
  rewrite (fetch_Ok _ _ r), bind_ret_l by (auto; lia).
  rewrite (fetch_Ok _ _ g), bind_ret_l by (auto; lia).
  rewrite (fetch_Ok _ _ b), bind_ret_l by (auto; lia).
  reflexivity.
Qed.

Lemma pixelHeight_fault (image : Image) (pixelSize : Z) (minHeight maxHeight : Q)
    (x y : Z) (t : list event) (f : fault) :
  pixelHeight image pixelSize minHeight maxHeight x y = (t, Fault f) -> f = OutOfBounds.
Proof.
  unfold pixelHeight. set (p := umul _ _). intros E. unfold bind in E.
  destruct (fetch (getData image) (uadd p 0)) as [t0 [r | f0]] eqn:E0.
  - destruct (fetch (getData image) (uadd p 1)) as [t1 [g | f1]] eqn:E1.
    + destruct (fetch (getData image) (uadd p 2)) as [t2 [b | f2]] eqn:E2.
      * simpl in E. discriminate.
      * simpl in E. injection E as _ <-. eapply fetch_fault, E2.
    + simpl in E. injection E as _ <-. eapply fetch_fault, E1.
  - injection E as _ <-. eapply fetch_fault, E0.
Qed.

Lemma pixelHeights_fill (image : Image) (pixelSize : Z) (minHeight maxHeight : Q) :
  pixelHeights image pixelSize minHeight maxHeight =
  fill (imageWidth image) (imageHeight image)
    (fun x y => cell x y (imageWidth image))
    (pixelHeight image pixelSize minHeight maxHeight)
    (replicate (Z.to_nat (umul (imageWidth image) (imageHeight image))) 0%Q).
Proof. reflexivity. Qed.

Lemma cell_inj (w h : Z) (x y x' y' : Z) :
  w * h < UINT_MODULUS ->
  0 <= x < w -> 0 <= y < h -> 0 <= x' < w -> 0 <= y' < h ->
  cell x y w = cell x' y' w -> x = x' /\ y = y'.
Proof.
  intros Hwh Hx Hy Hx' Hy' E.
  rewrite (proj1 (cell_small x y w h Hx Hy Hwh)) in E.
  rewrite (proj1 (cell_small x' y' w h Hx' Hy' Hwh)) in E.
  assert (Ex : x = x').
  { rewrite <- (Z.mod_small x w), <- (Z.mod_small x' w) by lia.
    rewrite <- (Z.mod_add x y w), <- (Z.mod_add x' y' w) by lia. congruence. }
  subst x'. split; [reflexivity |]. nia.
Qed.

Lemma sourceOffset_bound (image : Image) (pixelSize x y : Z) :
  0 <= pixelSize ->
  0 <= x < imageWidth image -> 0 <= y < imageHeight image ->
  (imageWidth image + imageHeight image * imageHeight image) * pixelSize + 2
    < UINT_MODULUS ->
  sourceOffset image pixelSize x y + 2 < UINT_MODULUS.
Proof.
  intros Hps Hx Hy Hb. unfold sourceOffset.
  assert (x + y * imageHeight image
          <= imageWidth image + imageHeight image * imageHeight image) by nia.
  assert ((x + y * imageHeight image) * pixelSize
          <= (imageWidth image + imageHeight image * imageHeight image) * pixelSize)
    by (apply Z.mul_le_mono_nonneg_r; lia).
  lia.
Qed.

Lemma pixelHeights_cells (image : Image) (pixelSize : Z) (minHeight maxHeight : Q)
    (tr : list event) (data : list Q) :
  0 <= imageWidth image -> 0 <= imageHeight image -> 0 <= pixelSize ->
  imageWidth image * imageHeight image < UINT_MODULUS ->
  (imageWidth image + imageHeight image * imageHeight image) * pixelSize + 2
    < UINT_MODULUS ->
  pixelHeights image pixelSize minHeight maxHeight = (tr, Ok data) ->
  Z.of_nat (length data) = imageWidth image * imageHeight image /\
  forall x y, 0 <= x < imageWidth image -> 0 <= y < imageHeight image ->
    exists r g b,
      getData image !! Z.to_nat (sourceOffset image pixelSize x y) = Some r /\
      getData image !! Z.to_nat (sourceOffset image pixelSize x y + 1) = Some g /\
      getData image !! Z.to_nat (sourceOffset image pixelSize x y + 2) = Some b /\
      data !! Z.to_nat (x + y * imageWidth image)
        = Some (channelHeight r g b minHeight maxHeight).
Proof.
  intros HW HH Hps Hwh Hb E. rewrite pixelHeights_fill in E.
  apply fill_content in E; [| | exact HW | exact HH].
  - destruct E as [Hlen Hcells]. split.
    + rewrite Hlen, length_replicate. unfold umul. rewrite uint_small by nia.
      apply Z2Nat.id. nia.
    + intros x y Hx Hy. destruct (Hcells x y Hx Hy) as (v & H0 & Hl & Hv).
      rewrite (proj1 (cell_small x y _ _ Hx Hy Hwh)) in Hl.
      destruct (pixelHeight image pixelSize minHeight maxHeight x y) as [t r] eqn:Ep.
      simpl in Hv. subst r.
      apply pixelHeight_Ok_inv in Ep; try lia;
        [| apply sourceOffset_bound; auto].
      destruct Ep as (r & g & b & Hr & Hg & Hbb & ->).
      exists r, g, b. auto.
  - intros i j i' j'. apply cell_inj. exact Hwh.
Qed.

(** On a square image the stored height of pixel [(x, y)] is the height
    of that pixel's own channels, as the specification words it. *)
Theorem pixelHeights_square (image : Image) (pixelSize : Z) (minHeight maxHeight : Q)
    (tr : list event) (data : list Q) (x y : Z) :
  imageWidth image = imageHeight image ->
  0 <= imageWidth image -> 0 <= pixelSize ->
  imageWidth image * imageHeight image < UINT_MODULUS ->
  (imageWidth image + imageHeight image * imageHeight image) * pixelSize + 2
    < UINT_MODULUS ->
  pixelHeights image pixelSize minHeight maxHeight = (tr, Ok data) ->
  0 <= x < imageWidth image -> 0 <= y < imageHeight image ->
  exists v s,
    data !! Z.to_nat (x + y * imageWidth image) = Some v /\
    specPixelHeight image pixelSize minHeight maxHeight x y = Some s /\
    (v == s)%Q.
Proof.
  intros Hsq HW Hps Hwh Hb E Hx Hy.
  destruct (pixelHeights_cells image pixelSize minHeight maxHeight tr data
              HW ltac:(lia) Hps Hwh Hb E) as [_ Hcells].
  destruct (Hcells x y Hx Hy) as (r & g & b & Hr & Hg & Hbb & Hd).
  unfold sourceOffset in Hr, Hg, Hbb. rewrite <- Hsq in Hr, Hg, Hbb.
  eexists _, _. split; [exact Hd |]. split.
  - unfold specPixelHeight. cbv zeta. rewrite Hr. simpl. rewrite Hg. simpl.
    rewrite Hbb. simpl. reflexivity.
  - unfold channelHeight, to_float. rewrite !inject_Z_plus. reflexivity.
Qed.

Lemma pixelHeights_wide_ok (image : Image) (pixelSize : Z)
    (minHeight maxHeight : Q) :
  0 <= imageHeight image <= imageWidth image -> 3 <= pixelSize ->
  Z.of_nat (length (getData image)) = imageWidth image * imageHeight image * pixelSize ->
  imageWidth image * imageHeight image * pixelSize < UINT_MODULUS ->
  exists tr data, pixelHeights image pixelSize minHeight maxHeight = (tr, Ok data).
Proof.
  intros HH Hps Hlen Hb. rewrite pixelHeights_fill.
  assert (Hwh : imageWidth image * imageHeight image < UINT_MODULUS) by nia.
  apply fill_progress; try lia.
  - intros x y Hx Hy.
    assert (Hin : sourceOffset image pixelSize x y + 2
                  < imageWidth image * imageHeight image * pixelSize).
    { unfold sourceOffset.
      assert (x + y * imageHeight image + 1 <= imageWidth image * imageHeight image) by nia.
      assert ((x + y * imageHeight image + 1) * pixelSize
              <= imageWidth image * imageHeight image * pixelSize)
        by (apply Z.mul_le_mono_nonneg_r; lia).
      lia. }
    assert (H0 : 0 <= sourceOffset image pixelSize x y) by (unfold sourceOffset; nia).
    destruct (lookup_lt_is_Some_2 (getData image)
                (Z.to_nat (sourceOffset image pixelSize x y))) as [r Hr]; [lia |].
    destruct (lookup_lt_is_Some_2 (getData image)
                (Z.to_nat (sourceOffset image pixelSize x y + 1))) as [g Hg]; [lia |].
    destruct (lookup_lt_is_Some_2 (getData image)
                (Z.to_nat (sourceOffset image pixelSize x y + 2))) as [b Hbb]; [lia |].
    eexists _, _.
    apply (pixelHeight_Ok image pixelSize minHeight maxHeight x y r g b); auto; lia.
  - intros x y Hx Hy. rewrite length_replicate.
    destruct (cell_small x y _ _ Hx Hy Hwh) as [-> Hr].
    unfold umul. rewrite uint_small by nia. rewrite Z2Nat.id by nia. exact Hr.
Qed.

(** With more rows than columns it does not: the read for the last pixel
    lies beyond a buffer of [width * height * pixelSize] bytes, and the
    loop nest ends in an out-of-bounds read. *)
Theorem pixelHeights_tall_faults (image : Image) (pixelSize : Z)
    (minHeight maxHeight : Q) :
  1 <= imageWidth image < imageHeight image -> 1 <= pixelSize ->
  Z.of_nat (length (getData image)) = imageWidth image * imageHeight image * pixelSize ->
  imageWidth image * imageHeight image < UINT_MODULUS ->
  (imageWidth image + imageHeight image * imageHeight image) * pixelSize + 2
    < UINT_MODULUS ->
  exists tr, pixelHeights image pixelSize minHeight maxHeight = (tr, Fault OutOfBounds).
Proof.
  intros HW Hps Hlen Hwh Hb.
  destruct (pixelHeights image pixelSize minHeight maxHeight) as [tr [data | f]] eqn:E.
  - exfalso.
    destruct (pixelHeights_cells image pixelSize minHeight maxHeight tr data
                ltac:(lia) ltac:(lia) ltac:(lia) Hwh Hb E) as [_ Hcells].
    destruct (Hcells (imageWidth image - 1) (imageHeight image - 1) ltac:(lia) ltac:(lia))
      as (r & g & b & Hr & _).
    apply lookup_lt_Some in Hr. unfold sourceOffset in Hr.
    assert (imageWidth image * imageHeight image
            <= imageWidth image - 1 + (imageHeight image - 1) * imageHeight image) by nia.
    assert (imageWidth image * imageHeight image * pixelSize
            <= (imageWidth image - 1 + (imageHeight image - 1) * imageHeight image)
               * pixelSize)
      by (apply Z.mul_le_mono_nonneg_r; lia).
    lia.
  - exists tr. f_equal. f_equal. rewrite pixelHeights_fill in E.
    apply (fill_fault (fun f => f = OutOfBounds)) in E; [exact E | | reflexivity].
    intros i j t f0. apply pixelHeight_fault.
Qed.


(** What the first loop nest leaves in [data]: when it completes, the
    array has one height per pixel and the height at offset [x + y*width]
    is computed from the three bytes at byte offset
    [(x + y*height) * pixelSize] of the image. *)
Theorem pixelHeights_content (image : Image) (pixelSize : Z) (minHeight maxHeight : Q)
    (tr : list event) (data : list Q) :
  0 <= imageWidth image -> 0 <= imageHeight image -> 0 <= pixelSize ->
  imageWidth image * imageHeight image < UINT_MODULUS ->
  (imageWidth image + imageHeight image * imageHeight image) * pixelSize + 2
    < UINT_MODULUS ->
  pixelHeights image pixelSize minHeight maxHeight = (tr, Ok data) ->
  Z.of_nat (length data) = imageWidth image * imageHeight image /\
  forall x y, 0 <= x < imageWidth image -> 0 <= y < imageHeight image ->
    exists r g b,
      getData image !! Z.to_nat (sourceOffset image pixelSize x y) = Some r /\
      getData image !! Z.to_nat (sourceOffset image pixelSize x y + 1) = Some g /\
      getData image !! Z.to_nat (sourceOffset image pixelSize x y + 2) = Some b /\
      data !! Z.to_nat (x + y * imageWidth image)
        = Some (channelHeight r g b minHeight maxHeight).
Proof. apply pixelHeights_cells. Qed.

(** With a pixel buffer of exactly [width * height * pixelSize] bytes and
    at least as many columns as rows, the first loop nest completes. *)
Theorem pixelHeights_wide_completes (image : Image) (pixelSize : Z)
    (minHeight maxHeight : Q) :
  0 <= imageHeight image <= imageWidth image -> 3 <= pixelSize ->
  Z.of_nat (length (getData image)) = imageWidth image * imageHeight image * pixelSize ->
  imageWidth image * imageHeight image * pixelSize < UINT_MODULUS ->
  exists tr data, pixelHeights image pixelSize minHeight maxHeight = (tr, Ok data).
Proof. apply pixelHeights_wide_ok. Qed.

(** ** The heightfield grid *)


Lemma imageCoordinate_aligned (k size : Z) :
  1 <= size < UINT_MODULUS - 1 ->
  (imageCoordinate k (size + 1) size == inject_Z k)%Q.
Proof.
  intros Hs. unfold imageCoordinate, to_float, usub.
  rewrite uint_small by lia. replace (size + 1 - 1) with size by lia.
  field. intros Hz.
  assert (Hs0 : (0 < inject_Z size)%Q) by (change 0%Q with (inject_Z 0); rewrite <- Zlt_Qlt; lia).
  rewrite Hz in Hs0. apply (Qlt_irrefl 0), Hs0.
Qed.

Lemma heightfieldGrid_fill (data : list Q) (W H sizeWidth sizeHeight : Z) :
  heightfieldGrid data W H sizeWidth sizeHeight =
  fill (sizeHeight + 1) (sizeWidth + 1)
    (fun row col => uadd (umul row (uadd sizeWidth 1)) col)
    (gridSample data W H sizeWidth sizeHeight)
    (replicate (Z.to_nat (umul (uadd sizeWidth 1) (uadd sizeHeight 1))) 0%Q).
Proof. reflexivity. Qed.

Lemma heightIndex_cell (row col width : Z) :
  uadd (umul row width) col = cell col row width.
Proof. unfold cell, uadd. rewrite Z.add_comm. reflexivity. Qed.

Section Grid.
Variables sizeWidth sizeHeight : Z.
Hypothesis Hsw : 1 <= sizeWidth.
Hypothesis Hsh : 1 <= sizeHeight.
Hypothesis Hcells : (sizeWidth + 1) * (sizeHeight + 1) < UINT_MODULUS.

Lemma grid_width : uadd sizeWidth 1 = sizeWidth + 1.
Proof. unfold uadd. apply uint_small. nia. Qed.

Lemma grid_height : uadd sizeHeight 1 = sizeHeight + 1.
Proof. unfold uadd. apply uint_small. nia. Qed.

Lemma grid_size :
  Z.of_nat (Z.to_nat (umul (uadd sizeWidth 1) (uadd sizeHeight 1)))
  = (sizeWidth + 1) * (sizeHeight + 1).
Proof.
  rewrite grid_width, grid_height. unfold umul. rewrite uint_small by nia.
  apply Z2Nat.id. nia.
Qed.

Lemma heightIndex_small (row col : Z) :
  0 <= row < sizeHeight + 1 -> 0 <= col < sizeWidth + 1 ->
  uadd (umul row (uadd sizeWidth 1)) col = row * (sizeWidth + 1) + col /\
  0 <= row * (sizeWidth + 1) + col < (sizeWidth + 1) * (sizeHeight + 1).
Proof.
  intros Hr Hc. rewrite heightIndex_cell, grid_width.
  destruct (cell_small col row (sizeWidth + 1) (sizeHeight + 1) Hc Hr Hcells) as [-> Hb].
  split; lia.
Qed.

Lemma heightIndex_inj (row col row' col' : Z) :
  0 <= row < sizeHeight + 1 -> 0 <= col < sizeWidth + 1 ->
  0 <= row' < sizeHeight + 1 -> 0 <= col' < sizeWidth + 1 ->
  uadd (umul row (uadd sizeWidth 1)) col = uadd (umul row' (uadd sizeWidth 1)) col' ->
  row = row' /\ col = col'.
Proof.
  intros Hr Hc Hr' Hc' E. rewrite !heightIndex_cell, grid_width in E.
  destruct (cell_inj (sizeWidth + 1) (sizeHeight + 1) col row col' row'
              Hcells Hc Hr Hc' Hr' E). auto.
Qed.

Lemma heightfieldGrid_cells (data : list Q) (W H : Z) (tr : list event)
    (grid : list Q) :
  heightfieldGrid data W H sizeWidth sizeHeight = (tr, Ok grid) ->
  Z.of_nat (length grid) = (sizeWidth + 1) * (sizeHeight + 1) /\
  forall row col, 0 <= row <= sizeHeight -> 0 <= col <= sizeWidth ->
    exists v,
      grid !! Z.to_nat (row * (sizeWidth + 1) + col) = Some v /\
      outcome (calculateHeight data W H (imageCoordinate col W sizeWidth)
                 (imageCoordinate (sizeHeight - row) H sizeHeight)) = Ok v.
Proof.
  intros E. rewrite heightfieldGrid_fill in E.
  apply fill_content in E; [| | lia | lia].
  - destruct E as [Hlen Hfilled]. split.
    + rewrite Hlen, length_replicate. apply grid_size.
    + intros row col Hr Hc.
      destruct (Hfilled row col ltac:(lia) ltac:(lia)) as (v & _ & Hl & Hv).
      rewrite (proj1 (heightIndex_small row col ltac:(lia) ltac:(lia))) in Hl.
      exists v. split; [exact Hl |].
      unfold gridSample, usub in Hv. rewrite uint_small in Hv by nia. exact Hv.
  - intros i j i' j'. apply heightIndex_inj.
Qed.

End Grid.

(** At a coordinate equal to an integer pair inside the grid the sampler
    returns that cell. *)
Lemma calculateHeight_at_integer (data : list Q) (w h xi yi : Z) (x y : Q) :
  Z.of_nat (length data) = w * h -> w * h < UINT_MODULUS ->
  0 <= xi < w -> 0 <= yi < h ->
  (x == inject_Z xi)%Q -> (y == inject_Z yi)%Q ->
  exists v d,
    outcome (calculateHeight data w h x y) = Ok v /\
    data !! Z.to_nat (xi + yi * w) = Some d /\ (v == d)%Q.
Proof.
  intros Hlen Hwh Hx Hy Ex Ey.
  assert (Hw : w < UINT_MODULUS) by nia.
  assert (Hh : h < UINT_MODULUS) by nia.
  assert (Hx0 : (0 <= x)%Q).
  { rewrite Ex. change 0%Q with (inject_Z 0). rewrite <- Zle_Qle. lia. }
  assert (Hy0 : (0 <= y)%Q).
  { rewrite Ey. change 0%Q with (inject_Z 0). rewrite <- Zle_Qle. lia. }
  assert (Hx1 : (x < inject_Z (UINT_MODULUS - 1))%Q) by (rewrite Ex, <- Zlt_Qlt; lia).
  assert (Hy1 : (y < inject_Z (UINT_MODULUS - 1))%Q) by (rewrite Ey, <- Zlt_Qlt; lia).
  rewrite (calculateHeight_floor data w h _ _ Hx0 Hx1 Hy0 Hy1). cbv zeta.
  assert (Fx : Qfloor x = xi) by (rewrite Ex; apply Qfloor_Z).
  assert (Fy : Qfloor y = yi) by (rewrite Ey; apply Qfloor_Z).
  rewrite Fx, Fy.
  destruct (lookup_cell data xi yi w h Hlen Hwh Hx Hy) as (a & Ha & La).
  destruct (Z.leb_spec w (xi + 1)) as [Hxe | Hxi];
    destruct (Z.leb_spec h (yi + 1)) as [Hye | Hyi]; simpl andb; cbv iota.
  - exists a, a. split; [exact La | split; [exact Ha | reflexivity]].
  - destruct (lookup_cell data xi (yi + 1) w h Hlen Hwh Hx ltac:(lia)) as (b & _ & Lb).
    eexists _, a. split; [| split; [exact Ha |]].
    + rewrite (outcome_bind_ok _ _ a La), (outcome_bind_ok _ _ b Lb). reflexivity.
    + rewrite Ey. ring.
  - destruct (lookup_cell data (xi + 1) yi w h Hlen Hwh ltac:(lia) Hy) as (b & _ & Lb).
    eexists _, a. split; [| split; [exact Ha |]].
    + rewrite (outcome_bind_ok _ _ a La), (outcome_bind_ok _ _ b Lb). reflexivity.
    + rewrite Ex. ring.
  - destruct (lookup_cell data xi (yi + 1) w h Hlen Hwh Hx ltac:(lia)) as (b & _ & Lb).
    destruct (lookup_cell data (xi + 1) (yi + 1) w h Hlen Hwh ltac:(lia) ltac:(lia))
      as (c & _ & Lc).
    destruct (lookup_cell data (xi + 1) yi w h Hlen Hwh ltac:(lia) Hy) as (d & _ & Ld).
    eexists _, a. split; [| split; [exact Ha |]].
    + rewrite (outcome_bind_ok _ _ a La), (outcome_bind_ok _ _ b Lb),
        (outcome_bind_ok _ _ c Lc), (outcome_bind_ok _ _ d Ld). reflexivity.
    + rewrite Ex, Ey. ring.
Qed.

(** With one pixel per grid cell (an image of [sizeWidth + 1] by
    [sizeHeight + 1] pixels, extents that a [float] holds unrounded) the
    heightfield is the array of pixel heights with its rows in reverse
    order: grid cell [(row, col)] is the height of pixel
    [(col, sizeHeight - row)]. *)
Theorem heightfieldGrid_flips_rows (data : list Q) (sizeWidth sizeHeight : Z)
    (tr : list event) (grid : list Q) (row col : Z) :
  1 <= sizeWidth < FLOAT_EXACT -> 1 <= sizeHeight < FLOAT_EXACT ->
  (sizeWidth + 1) * (sizeHeight + 1) < UINT_MODULUS ->
  Z.of_nat (length data) = (sizeWidth + 1) * (sizeHeight + 1) ->
  heightfieldGrid data (sizeWidth + 1) (sizeHeight + 1) sizeWidth sizeHeight
    = (tr, Ok grid) ->
  0 <= row <= sizeHeight -> 0 <= col <= sizeWidth ->
  exists v d,
    grid !! Z.to_nat (row * (sizeWidth + 1) + col) = Some v /\
    data !! Z.to_nat (col + (sizeHeight - row) * (sizeWidth + 1)) = Some d /\
    (v == d)%Q.
Proof.
  intros [Hsw _] [Hsh _] Hcells Hlen E Hr Hc.
  destruct (heightfieldGrid_cells sizeWidth sizeHeight Hsw Hsh Hcells data _ _ tr grid E)
    as [_ Hcontent].
  destruct (Hcontent row col Hr Hc) as (v & Hv & Ho).
  destruct (calculateHeight_at_integer data (sizeWidth + 1) (sizeHeight + 1)
              col (sizeHeight - row)
              (imageCoordinate col (sizeWidth + 1) sizeWidth)
              (imageCoordinate (sizeHeight - row) (sizeHeight + 1) sizeHeight))
    as (v' & d & Ho' & Hd & Evd); try lia.
  - apply imageCoordinate_aligned. nia.
  - apply imageCoordinate_aligned. nia.
  - exists v, d. split; [exact Hv |]. split; [exact Hd |].
    rewrite Ho in Ho'. injection Ho' as ->. exact Evd.
Qed.


(** ** The heightfield constructor as a whole *)


Section FromImage.
Context `{PA : PhysicsAPI}.



End FromImage.

(** ** The property loop, read as "the last value wins" *)

Section PropertyLoop.
Context `{LA : LoaderAPI}.

Lemma Exists_unsupportedType_cons (name value : string) (rest : list (string * string)) :
  Exists unsupportedType ((name, value) :: rest) <->
  (name = "type" /\ parseShapeType value = None) \/ Exists unsupportedType rest.
Proof. rewrite Exists_cons. reflexivity. Qed.

Ltac case_name name :=
  repeat match goal with
  | |- context [String.eqb name ?k] =>
      destruct (String.eqb_spec name k) as [-> | ?]
  end.

Lemma loadProperties_cases (props : list (string * string)) (s : Settings) :
  (Exists unsupportedType props ->
   loadProperties props s = ([Warn WARN_TYPE], Ok None)) /\
  (~ Exists unsupportedType props ->
   exists s', loadProperties props s = ([], Ok (Some s'))).
Proof.
  revert s. induction props as [| [name value] rest IH]; intros s.
  - split.
    + intros Hex. inversion Hex.
    + intros _. exists s. reflexivity.
  - rewrite Exists_unsupportedType_cons. simpl loadProperties.
    destruct (String.eqb_spec name "type") as [-> | Hne].
    + destruct (parseShapeType value) as [t |] eqn:Hp.
      * split.
        -- intros [[_ Hbad] | Hex]; [discriminate | apply IH, Hex].
        -- intros Hno. apply IH. tauto.
      * split.
        -- intros _. reflexivity.
        -- intros Hno. exfalso. apply Hno. left. auto.
    + case_name name; (split;
        [ intros [[Hn _] | Hex]; [congruence | apply IH, Hex]
        | intros Hno; apply IH; tauto ]).
Qed.

(** The loop never faults; it gives up, with one warning, exactly when
    some [type] property has an unsupported value, whatever the other
    properties are, and otherwise returns the settings silently. *)
Theorem loadProperties_outcome (props : list (string * string)) (s : Settings) :
  (Exists unsupportedType props ->
   loadProperties props s = ([Warn WARN_TYPE], Ok None)) /\
  (~ Exists unsupportedType props ->
   exists s', loadProperties props s = ([], Ok (Some s'))).
Proof. apply loadProperties_cases. Qed.

Lemma lastValue_cons_ne (key name value : string) (rest : list (string * string)) :
  name <> key -> lastValue key ((name, value) :: rest) = lastValue key rest.
Proof.
  intros Hne. simpl. destruct (lastValue key rest); [reflexivity |].
  destruct (String.eqb_spec name key); [contradiction | reflexivity].
Qed.

Lemma lastValue_cons_eq (key value : string) (rest : list (string * string)) :
  lastValue key ((key, value) :: rest) = Some (default value (lastValue key rest)).
Proof.
  simpl. destruct (lastValue key rest); [reflexivity |].
  rewrite String.eqb_refl. reflexivity.
Qed.

Lemma lastSettings_nil (s : Settings) : lastSettings [] s = s.
Proof. destruct s. reflexivity. Qed.

Ltac step_key k :=
  first [ rewrite (lastValue_cons_eq k)
        | rewrite (lastValue_cons_ne k) by congruence ].

Ltac last_wins rest :=
  unfold lastSettings;
  step_key "type"; step_key "mass"; step_key "friction"; step_key "restitution";
  step_key "linearDamping"; step_key "angularDamping"; step_key "kinematic";
  step_key "gravity"; step_key "anisotropicFriction"; step_key "image";
  step_key "radius"; step_key "height";
  cbn [s_type s_mass s_friction s_restitution s_linearDamping s_angularDamping
       s_kinematic s_gravity s_anisotropicFriction s_imagePath s_radius s_height
       with_type with_mass with_friction with_restitution with_linearDamping
       with_angularDamping with_kinematic with_gravity with_anisotropicFriction
       with_imagePath with_radius with_height];
  try match goal with
  | |- context [default _ (lastValue ?k rest)] => destruct (lastValue k rest)
  end;
  try reflexivity.

Lemma loadProperties_type_parses (props : list (string * string)) (s s' : Settings)
    (tr : list event) (v : string) :
  loadProperties props s = (tr, Ok (Some s')) ->
  lastValue "type" props = Some v -> is_Some (parseShapeType v).
Proof.
  revert s. induction props as [| [name value] rest IH]; intros s E Hv.
  - discriminate.
  - simpl loadProperties in E.
    destruct (String.eqb_spec name "type") as [-> | Hne].
    + destruct (parseShapeType value) as [t |] eqn:Hp; [| discriminate].
      rewrite lastValue_cons_eq in Hv. injection Hv as <-.
      destruct (lastValue "type" rest) as [v' |] eqn:Hl; simpl.
      * eapply IH; [exact E | reflexivity].
      * rewrite Hp. eauto.
    + rewrite lastValue_cons_ne in Hv by exact Hne.
      revert E. case_name name; intros E; eapply IH; eauto.
Qed.

Lemma loadProperties_last (props : list (string * string)) (s s' : Settings)
    (tr : list event) :
  loadProperties props s = (tr, Ok (Some s')) -> s' = lastSettings props s.
Proof.
  revert s. induction props as [| [name value] rest IH]; intros s E.
  - simpl in E. unfold ret in E. injection E as _ <-. symmetry. apply lastSettings_nil.
  - simpl loadProperties in E.
    destruct (String.eqb_spec name "type") as [-> | Hne].
    + destruct (parseShapeType value) as [t |] eqn:Hp; [| discriminate].
      pose proof (fun v => loadProperties_type_parses rest _ _ _ v E) as Hparse.
      rewrite (IH _ E). unfold lastSettings.
      rewrite (lastValue_cons_eq "type").
      repeat (rewrite lastValue_cons_ne by discriminate).
      cbn [s_type s_mass s_friction s_restitution s_linearDamping s_angularDamping
           s_kinematic s_gravity s_anisotropicFriction s_imagePath s_radius s_height
           with_type].
      f_equal. destruct (lastValue "type" rest) as [v |]; simpl.
      * destruct (Hparse v eq_refl) as [t' ->]. reflexivity.
      * rewrite Hp. reflexivity.
    + revert E. case_name name; intros E; rewrite (IH _ E); last_wins rest.
Qed.

(** The loop is "the last value wins": when it completes, each setting
    is the parsed value of the last property of its name, and the
    initial setting when there is none; unknown names are ignored. *)
Theorem loadProperties_last_value_wins (props : list (string * string))
    (s s' : Settings) (tr : list event) :
  loadProperties props s = (tr, Ok (Some s')) -> s' = lastSettings props s.
Proof. apply loadProperties_last. Qed.

End PropertyLoop.

(** ** [create] on a block that lacks a required field *)

Section CreateErrors.
Context `{PA : PhysicsAPI} `{LA : LoaderAPI}.

Lemma applySettings_null (s : Settings) :
  applySettings None s
  = if touchesBody s then ([], Fault NullDereference) else ([], Ok None).
Proof.
  unfold applySettings, touchesBody.
  destruct (s_kinematic s); [reflexivity |].
  destruct (s_gravity s); [reflexivity |].
  destruct (s_anisotropicFriction s); reflexivity.
Qed.

(** [create] up to the switch, for a block that loads. *)
Lemma create_loaded (node : Node) (p : Properties) :
  getNamespace p = "rigidbody" ->
  ~ Exists unsupportedType (properties_list p) ->
  create node (Some p) =
    (supported <- checkPrimitiveType node (lastSettings (properties_list p) defaults) ;;
     if negb supported then ret None
     else
       created <- createBody node (lastSettings (properties_list p) defaults) ;;
       match created with
       | None => ret None
       | Some body => applySettings body (lastSettings (properties_list p) defaults)
       end).
Proof.
  intros Hns Hok. unfold create. rewrite Hns. simpl negb. cbv iota.
  destruct (proj2 (loadProperties_cases (properties_list p) defaults) Hok) as [s' E].
  rewrite (loadProperties_last _ _ _ _ E) in E. rewrite E.
  change ([], Ok (Some (lastSettings (properties_list p) defaults)))
    with (ret (Some (lastSettings (properties_list p) defaults))).
  rewrite bind_ret_l. reflexivity.
Qed.

(** A heightfield block without an [image] property: the warning is
    logged and the body is null; [create] returns null when no setter is
    due, and dereferences the null body when [kinematic] is true or a
    [gravity] or [anisotropicFriction] property is present. *)
Theorem create_heightfield_missing_image (node : Node) (p : Properties) :
  getNamespace p = "rigidbody" ->
  ~ Exists unsupportedType (properties_list p) ->
  lastValue "type" (properties_list p) = Some "HEIGHTFIELD" ->
  lastValue "image" (properties_list p) = None ->
  create node (Some p) =
    ([Warn WARN_IMAGE],
     if touchesBody (lastSettings (properties_list p) defaults)
     then Fault NullDereference else Ok None).
Proof.
  intros Hns Hok Ht Hi. rewrite (create_loaded node p Hns Hok).
  set (s := lastSettings (properties_list p) defaults).
  assert (Hst : s_type s = SHAPE_HEIGHTFIELD).
  { unfold s, lastSettings. cbn [s_type]. rewrite Ht. reflexivity. }
  assert (Hsi : s_imagePath s = None).
  { unfold s, lastSettings. cbn [s_imagePath]. rewrite Hi. reflexivity. }
  unfold checkPrimitiveType, createBody. rewrite Hst, Hsi. simpl bool_decide. cbv iota.
  rewrite bind_ret_l. simpl negb. cbv iota.
  change (emit (Warn WARN_IMAGE);;; ret (Some None))
    with ([Warn WARN_IMAGE], Ok (Some (@None PhysicsRigidBody))).
  unfold bind at 1. rewrite applySettings_null.
  destruct (touchesBody s); reflexivity.
Qed.

(** A capsule block whose radius or height is missing (or is the
    sentinel -1): the same, with the capsule warning. *)
Theorem create_capsule_missing_dimension (node : Node) (p : Properties) :
  getNamespace p = "rigidbody" ->
  ~ Exists unsupportedType (properties_list p) ->
  lastValue "type" (properties_list p) = Some "CAPSULE" ->
  let s := lastSettings (properties_list p) defaults in
  (s_radius s == -1)%Q \/ (s_height s == -1)%Q ->
  create node (Some p) =
    ([Warn WARN_CAPSULE], if touchesBody s then Fault NullDereference else Ok None).
Proof.
  intros Hns Hok Ht s Hdim. rewrite (create_loaded node p Hns Hok). fold s.
  assert (Hst : s_type s = SHAPE_CAPSULE).
  { unfold s, lastSettings. cbn [s_type]. rewrite Ht. reflexivity. }
  assert (Hb : Qeq_bool (s_radius s) (-1) || Qeq_bool (s_height s) (-1) = true).
  { apply orb_true_iff. destruct Hdim as [Hd | Hd]; [left | right];
      apply Qeq_bool_iff, Hd. }
  unfold checkPrimitiveType, createBody. rewrite Hst, Hb. simpl bool_decide. cbv iota.
  rewrite bind_ret_l. simpl negb. cbv iota.
  change (emit (Warn WARN_CAPSULE);;; ret (Some None))
    with ([Warn WARN_CAPSULE], Ok (Some (@None PhysicsRigidBody))).
  unfold bind at 1. rewrite applySettings_null.
  destruct (touchesBody s); reflexivity.
Qed.

(** A mesh block on a node whose mesh is not a triangle list: the warning
    is logged and null is returned before anything is constructed,
    whatever the other properties are. *)
Theorem create_mesh_unsupported_primitive (node : Node) (p : Properties) (mesh : Mesh) :
  getNamespace p = "rigidbody" ->
  ~ Exists unsupportedType (properties_list p) ->
  lastValue "type" (properties_list p) = Some "MESH" ->
  getMesh node = Some mesh ->
  getPrimitiveType mesh <> TRIANGLES ->
  create node (Some p) = ([Warn WARN_PRIMITIVE], Ok None).
Proof.
  intros Hns Hok Ht Hmesh Hprim. rewrite (create_loaded node p Hns Hok).
  set (s := lastSettings (properties_list p) defaults).
  assert (Hst : s_type s = SHAPE_MESH).
  { unfold s, lastSettings. cbn [s_type]. rewrite Ht. reflexivity. }
  unfold checkPrimitiveType. rewrite Hst, Hmesh. simpl bool_decide. cbv iota.
  simpl deref. rewrite bind_ret_l.
  destruct (getPrimitiveType mesh); [contradiction | | | |]; reflexivity.
Qed.

End CreateErrors.

(** ** The other constructors *)

Section Constructors.
Context `{PA : PhysicsAPI}.

Lemma createRigidBodyInternal_Some (shape : btCollisionShape) (mass : Q) (node : Node)
    (friction restitution linearDamping angularDamping : Q) (offset : option Vector3) :
  createRigidBodyInternal (Some shape) mass node friction restitution
    linearDamping angularDamping offset
  = ret (bullet_new mass node offset (Some shape) (localInertiaOf shape mass)
           friction restitution linearDamping angularDamping).
Proof.
  unfold createRigidBodyInternal, localInertiaOf.
  destruct (Qeq_bool mass 0); simpl negb; cbv iota.
  - rewrite bind_ret_l. reflexivity.
  - simpl deref. rewrite !bind_ret_l.
    destruct (bool_decide _); reflexivity.
Qed.

(** Every constructor reads the node's mesh: on a node without one it
    dereferences null, and nothing has been registered by then. *)
Theorem constructors_need_mesh (node : Node) (type : ShapeType) (image : Image)
    (capsuleRadius capsuleHeight mass friction restitution linearDamping angularDamping : Q) :
  getMesh node = None ->
  PhysicsRigidBody_fromShape node type mass friction restitution
    linearDamping angularDamping = ([], Fault NullDereference) /\
  PhysicsRigidBody_fromImage node image mass friction restitution
    linearDamping angularDamping = ([], Fault NullDereference) /\
  PhysicsRigidBody_fromCapsule node capsuleRadius capsuleHeight mass friction
    restitution linearDamping angularDamping = ([], Fault NullDereference).
Proof.
  intros Hmesh.
  unfold PhysicsRigidBody_fromShape, PhysicsRigidBody_fromImage,
    PhysicsRigidBody_fromCapsule.
  rewrite Hmesh. split; [destruct type; reflexivity | split; reflexivity].
Qed.

Lemma fromShape_none_faults (node : Node) (mesh : Mesh)
    (mass friction restitution linearDamping angularDamping : Q) :
  getMesh node = Some mesh -> ~ (mass == 0)%Q ->
  PhysicsRigidBody_fromShape node SHAPE_NONE mass friction restitution
    linearDamping angularDamping = ([], Fault NullDereference).
Proof.
  intros Hmesh Hm. unfold PhysicsRigidBody_fromShape. rewrite Hmesh.
  simpl deref. rewrite !bind_ret_l. unfold createRigidBodyInternal.
  assert (Hb : Qeq_bool mass 0 = false).
  { apply not_true_iff_false. rewrite Qeq_bool_iff. exact Hm. }
  rewrite Hb. simpl. destruct (Qgtb _ _); reflexivity.
Qed.

(** A mesh body never gets a center of mass offset, and no local inertia
    when Bullet tags its shape as a triangle mesh, whatever the mass and
    the bounding sphere; the construction completes and registers the
    body once. *)
Theorem fromShape_mesh (node : Node) (mesh : Mesh)
    (mass friction restitution linearDamping angularDamping : Q) :
  getMesh node = Some mesh ->
  let scale := Matrix_getScale (getWorldMatrix node) in
  let shape := createMesh node scale in
  getShapeType shape = TRIANGLE_MESH_SHAPE_PROXYTYPE ->
  PhysicsRigidBody_fromShape node SHAPE_MESH mass friction restitution
    linearDamping angularDamping
  = ([AddCollisionObject],
     Ok (newBody (Some shape)
           (bullet_new mass node None (Some shape) zeroVector
              friction restitution linearDamping angularDamping) node)).
Proof.
  intros Hmesh scale shape Htag. unfold PhysicsRigidBody_fromShape. rewrite Hmesh.
  simpl deref. rewrite !bind_ret_l. simpl bool_decide. simpl negb.
  rewrite andb_false_r. cbv iota. fold scale. fold shape.
  rewrite createRigidBodyInternal_Some, bind_ret_l.
  unfold localInertiaOf. rewrite Htag. simpl bool_decide. cbv iota.
  destruct (Qeq_bool mass 0); reflexivity.
Qed.


End Constructors.

Section CreateCapsule.
Context `{PA : PhysicsAPI} `{LA : LoaderAPI}.

Lemma applySettings_Some (b : PhysicsRigidBody) (s : Settings) :
  applySettings (Some b) s = ret (Some (configure s b)).
Proof.
  unfold applySettings, configure.
  destruct (s_kinematic s) eqn:Hk; simpl deref; rewrite !bind_ret_l;
    destruct (s_gravity s); simpl deref; rewrite !bind_ret_l;
    destruct (s_anisotropicFriction s); simpl deref; rewrite ?bind_ret_l; reflexivity.
Qed.

(** A capsule block with a radius and a height, on a node with a mesh:
    [create] builds the capsule body from the last values of the block,
    registers it once and then applies [kinematic] (only when true),
    [gravity] and [anisotropicFriction] (only when present), in this
    order. *)
Theorem create_capsule (node : Node) (p : Properties) (mesh : Mesh) :
  getNamespace p = "rigidbody" ->
  ~ Exists unsupportedType (properties_list p) ->
  lastValue "type" (properties_list p) = Some "CAPSULE" ->
  getMesh node = Some mesh ->
  let s := lastSettings (properties_list p) defaults in
  ~ (s_radius s == -1)%Q -> ~ (s_height s == -1)%Q ->
  let scale := Matrix_getScale (getWorldMatrix node) in
  let shape := createCapsule (s_radius s) (s_height s) in
  create node (Some p) =
    ([AddCollisionObject],
     Ok (Some (configure s
                 (newBody (Some shape)
                    (bullet_new (s_mass s) node (offsetOf mesh scale) (Some shape)
                       (localInertiaOf shape (s_mass s)) (s_friction s)
                       (s_restitution s) (s_linearDamping s) (s_angularDamping s))
                    node)))).
Proof.
  intros Hns Hok Ht Hmesh s Hr Hh scale shape.
  rewrite (create_loaded node p Hns Hok). fold s.
  assert (Hst : s_type s = SHAPE_CAPSULE).
  { unfold s, lastSettings. cbn [s_type]. rewrite Ht. reflexivity. }
  assert (Hb : Qeq_bool (s_radius s) (-1) || Qeq_bool (s_height s) (-1) = false).
  { apply orb_false_iff. split; apply not_true_iff_false; rewrite Qeq_bool_iff; assumption. }
  unfold checkPrimitiveType, createBody. rewrite Hst, Hb. simpl bool_decide. cbv iota.
  rewrite bind_ret_l. simpl negb. cbv iota.
  unfold PhysicsRigidBody_fromCapsule. rewrite Hmesh. simpl deref. rewrite bind_ret_l.
  fold scale. fold shape. unfold offsetOf.
  destruct (Qgtb _ _); rewrite createRigidBodyInternal_Some, bind_ret_l;
    unfold bind, emit, ret; simpl; rewrite applySettings_Some; reflexivity.
Qed.

(** A block without a [type] property selects no shape ([SHAPE_NONE]):
    with a non-zero mass, on a node with a mesh, the inertia computation
    dereferences the null shape and nothing is registered. *)
Theorem create_without_type (node : Node) (p : Properties) (mesh : Mesh) :
  getNamespace p = "rigidbody" ->
  ~ Exists unsupportedType (properties_list p) ->
  lastValue "type" (properties_list p) = None ->
  getMesh node = Some mesh ->
  ~ (s_mass (lastSettings (properties_list p) defaults) == 0)%Q ->
  create node (Some p) = ([], Fault NullDereference).
Proof.
  intros Hns Hok Ht Hmesh Hm. rewrite (create_loaded node p Hns Hok).
  set (s := lastSettings (properties_list p) defaults) in *.
  assert (Hst : s_type s = SHAPE_NONE).
  { unfold s, lastSettings. cbn [s_type]. rewrite Ht. reflexivity. }
  unfold checkPrimitiveType, createBody. rewrite Hst. simpl bool_decide. cbv iota.
  rewrite bind_ret_l. simpl negb. cbv iota.
  rewrite (fromShape_none_faults node mesh _ _ _ _ _ Hmesh Hm). reflexivity.
Qed.

(** A block that [create] rejects outright: another namespace, or a
    [type] property with an unsupported value anywhere in the block; one
    warning, a null result, nothing constructed. *)
Theorem create_rejects_block (node : Node) (p : Properties) :
  (getNamespace p <> "rigidbody" ->
   create node (Some p) = ([Warn WARN_NAMESPACE], Ok None)) /\
  (getNamespace p = "rigidbody" -> Exists unsupportedType (properties_list p) ->
   create node (Some p) = ([Warn WARN_TYPE], Ok None)).
Proof.
  unfold create. split.
  - intros Hns. destruct (String.eqb_spec (getNamespace p) "rigidbody"); [contradiction |].
    reflexivity.
  - intros Hns Hex. rewrite Hns. simpl negb. cbv iota.
    rewrite (proj1 (loadProperties_cases (properties_list p) defaults) Hex).
    reflexivity.
Qed.

End CreateCapsule.

(** ** The constraint registry *)

Section ConstraintRegistryFacts.
Context {PhysicsConstraint : Type} `{EqDecision PhysicsConstraint}.
Local Open Scope nat_scope.

Lemma removeConstraint_from_skip (c : PhysicsConstraint)
    (mid pre post : list PhysicsConstraint) (n : nat) :
  c ∉ mid ->
  removeConstraint_from (length mid + n) (length pre) (pre ++ mid ++ post) c
  = removeConstraint_from n (length pre + length mid) (pre ++ mid ++ post) c.
Proof.
  revert pre. induction mid as [| x mid IH]; intros pre Hc.
  - simpl. rewrite Nat.add_0_r. reflexivity.
  - apply not_elem_of_cons in Hc. destruct Hc as [Hne Hc]. simpl length.
    rewrite <- app_comm_cons. cbn [Nat.add removeConstraint_from].
    rewrite (list_lookup_middle pre (mid ++ post) x (length pre) eq_refl).
    destruct (decide (x = c)) as [-> | _]; [contradiction |].
    specialize (IH (pre ++ [x]) Hc).
    rewrite length_app in IH. simpl in IH.
    rewrite <- !app_assoc in IH. simpl in IH.
    replace (length pre + S (length mid)) with (length pre + 1 + length mid) by lia.
    replace (S (length pre)) with (length pre + 1) by lia. exact IH.
Qed.

Lemma removeConstraint_erases (c : PhysicsConstraint)
    (pre post : list PhysicsConstraint) :
  c ∉ pre -> removeConstraint (pre ++ c :: post) c = pre ++ post.
Proof.
  intros Hc. unfold removeConstraint. rewrite length_app.
  pose proof (removeConstraint_from_skip c pre [] (c :: post) (length (c :: post)) Hc)
    as E.
  simpl in E. simpl. rewrite E.
  rewrite (list_lookup_middle pre post c (length pre) eq_refl).
  destruct (decide (c = c)); [| contradiction]. apply delete_middle.
Qed.

Lemma removeConstraint_absent (c : PhysicsConstraint)
    (constraints : list PhysicsConstraint) :
  c ∉ constraints -> removeConstraint constraints c = constraints.
Proof.
  intros Hc. unfold removeConstraint.
  pose proof (removeConstraint_from_skip c constraints [] [] 0 Hc) as E.
  rewrite app_nil_r, Nat.add_0_r in E. simpl in E. exact E.
Qed.

(** [removeConstraint] erases the first occurrence of the constraint and
    nothing else; a constraint that is not attached leaves the vector as
    it is. *)
Theorem removeConstraint_first (c : PhysicsConstraint)
    (pre post : list PhysicsConstraint) :
  c ∉ pre ->
  removeConstraint (pre ++ c :: post) c = pre ++ post /\
  removeConstraint pre c = pre.
Proof.
  intros Hc. split; [apply removeConstraint_erases | apply removeConstraint_absent];
    exact Hc.
Qed.

(** Attaching a constraint that is not attached yet and removing it again
    gives the vector back; when it was attached already, the removal
    takes the earlier entry and the new one stays last. *)
Theorem removeConstraint_addConstraint (c : PhysicsConstraint)
    (constraints : list PhysicsConstraint) :
  (c ∉ constraints -> removeConstraint (addConstraint constraints c) c = constraints) /\
  (c ∈ constraints ->
   removeConstraint (addConstraint constraints c) c
   = addConstraint (removeConstraint constraints c) c).
Proof.
  unfold addConstraint. split.
  - intros Hc. rewrite (removeConstraint_erases c constraints [] Hc). apply app_nil_r.
  - intros Hc. apply list_elem_of_split_l in Hc.
    destruct Hc as (pre & post & -> & Hpre).
    rewrite <- app_assoc. simpl app.
    rewrite (removeConstraint_erases c pre (post ++ [c]) Hpre).
    rewrite (removeConstraint_erases c pre post Hpre).
    apply app_assoc.
Qed.

End ConstraintRegistryFacts.

(** ** Examples *)

Section FurtherExamples.
Import Sample Inputs.

Ltac qdecide := vm_compute; first [reflexivity | discriminate].

(* [run t E]: evaluate the run [t], name [E] the equation between the run
   and its result. *)
Ltac run t E :=
  let r := eval vm_compute in t in
  assert (E : t = r) by (vm_compute; exact eq_refl).

Lemma getHeight_frame_witness :
  exists tr b' h,
    getHeight terrainBody (- (1 # 4)) (- (1 # 4)) = (tr, Ok (b', h)) /\
    b' = set_inverse terrainBody (_inverse b') (_inverseIsDirty b') /\
    _inverseIsDirty b' = false.
Proof.
  run (getHeight terrainBody (- (1 # 4)) (- (1 # 4))) E.
  eexists _, _, _. split; [exact E |].
  destruct (getHeight_frame terrainBody _ _ _ _ _ E) as [Hf Hd].
  split; [exact Hf |]. apply (Hd TERRAIN_SHAPE_PROXYTYPE); reflexivity.
Defined.

Lemma getHeight_twice_witness :
  exists tr b1 h1 tr' b2 h2,
    getHeight terrainBody (- (1 # 4)) (- (1 # 4)) = (tr, Ok (b1, h1)) /\
    getHeight b1 (1 # 4) 0 = (tr', Ok (b2, h2)) /\
    b2 = b1.
Proof.
  run (getHeight terrainBody (- (1 # 4)) (- (1 # 4))) E1.
  run (getHeight (set_inverse terrainBody (Some tt) false) (1 # 4) 0) E2.
  eexists _, _, _, _, _, _. split; [exact E1 |]. split; [exact E2 |].
  exact (getHeight_twice terrainBody _ _ _ _ _ _ _ _ _ _ E1 E2).
Defined.

Lemma getHeight_after_transformChanged_witness :
  exists tr b' h,
    getHeight (transformChanged terrainBody) 0 0 = (tr, Ok (b', h)) /\
    _inverse b' = Some tt /\ _inverseIsDirty b' = false.
Proof.
  run (getHeight (transformChanged terrainBody) 0 0) E.
  eexists _, _, _. split; [exact E |].
  exact (getHeight_after_transformChanged terrainBody _ TERRAIN_SHAPE_PROXYTYPE
           0 0 _ _ eq_refl eq_refl E).
Defined.

Lemma getHeight_inside_witness :
  exists tr v,
    getHeight terrainBody (- (1 # 4)) (- (1 # 4)) = (tr, Ok (refreshInverse terrainBody, v)) /\
    readsWithin (2 * 2) tr.
Proof.
  destruct (getHeight_inside terrainBody TERRAIN_SHAPE_PROXYTYPE
              [90%Q; 120%Q; 30%Q; 60%Q] (- (1 # 4)) (- (1 # 4))
              eq_refl eq_refl (or_introl eq_refl) eq_refl eq_refl
              ltac:(split; qdecide) ltac:(split; qdecide) eq_refl)
    as (inv & _ & Hin).
  destruct (Hin (rescale (- (1 # 4)) 2) (rescale (- (1 # 4)) 2) eq_refl)
    as (tr & v & E & R); try qdecide.
  exists tr, v. split; [exact E | exact R].
Defined.

Lemma pixelHeights_content_witness :
  exists tr data r g b,
    pixelHeights image3x2 3 0 768 = (tr, Ok data) /\
    getData image3x2 !! Z.to_nat (sourceOffset image3x2 3 0 1) = Some r /\
    data !! Z.to_nat (0 + 1 * 3) = Some (channelHeight r g b 0 768).
Proof.
  run (pixelHeights image3x2 3 0 768) E.
  destruct (pixelHeights_content image3x2 3 0 768 _ _ ltac:(qdecide) ltac:(qdecide)
              ltac:(qdecide) ltac:(qdecide) ltac:(qdecide) E) as [_ Hcells].
  destruct (Hcells 0 1) as (r & g & b & Hr & _ & _ & Hd); try (split; qdecide).
  eexists _, _, r, g, b. split; [exact E |]. split; [exact Hr | exact Hd].
Defined.

Lemma pixelHeights_square_witness :
  exists tr data v s,
    pixelHeights image2x2 3 0 768 = (tr, Ok data) /\
    data !! Z.to_nat (1 + 1 * 2) = Some v /\
    specPixelHeight image2x2 3 0 768 1 1 = Some s /\ (v == s)%Q.
Proof.
  run (pixelHeights image2x2 3 0 768) E.
  destruct (pixelHeights_square image2x2 3 0 768 _ _ 1 1 ltac:(qdecide) ltac:(qdecide)
              ltac:(qdecide) ltac:(qdecide) ltac:(qdecide) E)
    as (v & s & Hv & Hs & Evs); try (split; qdecide).
  eexists _, _, v, s. split; [exact E |]. auto.
Defined.

Lemma pixelHeights_wide_completes_witness :
  exists tr data, pixelHeights image3x2 3 0 768 = (tr, Ok data).
Proof.
  apply (pixelHeights_wide_completes image3x2 3 0 768);
    try qdecide; split; qdecide.
Defined.

Lemma pixelHeights_tall_faults_witness :
  exists tr,
    pixelHeights (greyImage 2 3 [1; 2; 3; 4; 5; 6]) 3 0 768 = (tr, Fault OutOfBounds).
Proof.
  apply (pixelHeights_tall_faults (greyImage 2 3 [1; 2; 3; 4; 5; 6]) 3 0 768);
    try qdecide; split; qdecide.
Defined.


Lemma heightfieldGrid_flips_rows_witness :
  exists tr grid v d,
    heightfieldGrid [1%Q; 2%Q; 3%Q; 4%Q] 2 2 1 1 = (tr, Ok grid) /\
    grid !! Z.to_nat (0 * (1 + 1) + 1) = Some v /\
    [1%Q; 2%Q; 3%Q; 4%Q] !! Z.to_nat (1 + (1 - 0) * (1 + 1)) = Some d /\
    (v == d)%Q.
Proof.
  run (heightfieldGrid [1%Q; 2%Q; 3%Q; 4%Q] 2 2 1 1) E.
  destruct (heightfieldGrid_flips_rows [1%Q; 2%Q; 3%Q; 4%Q] 1 1 _ _ 0 1
              ltac:(split; qdecide) ltac:(split; qdecide) ltac:(qdecide) ltac:(qdecide) E)
    as (v & d & Hv & Hd & Evd); try (split; qdecide).
  eexists _, _, v, d. split; [exact E |]. auto.
Defined.


Lemma no_unsupported (props : list (string * string)) :
  forallb (fun kv => negb (String.eqb (fst kv) "type")
                     || match parseShapeType (snd kv) with Some _ => true | None => false end)
    props = true ->
  ~ Exists unsupportedType props.
Proof.
  intros Hall Hex. rewrite forallb_forall in Hall. apply Exists_exists in Hex.
  destruct Hex as ([name value] & Hin & Hn & Hp). simpl in Hn, Hp.
  apply list_elem_of_In in Hin. specialize (Hall _ Hin). simpl in Hall.
  rewrite Hn, Hp in Hall. discriminate.
Qed.

Lemma loadProperties_outcome_witness :
  loadProperties [("mass", "1"); ("type", "TORUS"); ("image", "a.png")] defaults
  = ([Warn WARN_TYPE], Ok None).
Proof.
  apply (loadProperties_outcome [("mass", "1"); ("type", "TORUS"); ("image", "a.png")]
           defaults).
  apply Exists_cons_tl, Exists_cons_hd. split; reflexivity.
Defined.

Lemma loadProperties_last_value_wins_witness :
  exists tr s',
    loadProperties (properties_list capsuleBlock) defaults = (tr, Ok (Some s')) /\
    s' = lastSettings (properties_list capsuleBlock) defaults /\
    s_type s' = SHAPE_CAPSULE.
Proof.
  run (loadProperties (properties_list capsuleBlock) defaults) E.
  eexists _, _. split; [exact E |].
  pose proof (loadProperties_last_value_wins _ _ _ _ E) as Hs.
  split; [exact Hs |]. reflexivity.
Defined.

Lemma create_heightfield_missing_image_witness :
  create (terrainNode 1 1) (Some heightfieldBlock)
  = ([Warn WARN_IMAGE], Fault NullDereference).
Proof.
  exact (create_heightfield_missing_image (terrainNode 1 1) heightfieldBlock
           eq_refl (no_unsupported (properties_list heightfieldBlock) eq_refl) eq_refl eq_refl).
Defined.

Lemma create_capsule_missing_dimension_witness :
  create (terrainNode 1 1) (Some capsuleBlock) = ([Warn WARN_CAPSULE], Ok None).
Proof.
  exact (create_capsule_missing_dimension (terrainNode 1 1) capsuleBlock
           eq_refl (no_unsupported (properties_list capsuleBlock) eq_refl) eq_refl (or_intror eq_refl)).
Defined.

Lemma create_mesh_unsupported_primitive_witness :
  create lineNode (Some meshBlock) = ([Warn WARN_PRIMITIVE], Ok None).
Proof.
  apply (create_mesh_unsupported_primitive lineNode meshBlock lineMesh eq_refl
           (no_unsupported (properties_list meshBlock) eq_refl) eq_refl eq_refl).
  discriminate.
Defined.

Lemma create_capsule_witness :
  exists b,
    create (terrainNode 1 1) (Some fullCapsuleBlock) = ([AddCollisionObject], Ok (Some b)) /\
    _body b = [SetGravity zeroVector; SetKinematic true].
Proof.
  eexists. split.
  - apply (create_capsule (terrainNode 1 1) fullCapsuleBlock (terrainMesh 1 1)); try reflexivity.
    + apply no_unsupported. reflexivity.
    + vm_compute. discriminate.
    + vm_compute. discriminate.
  - reflexivity.
Defined.

Lemma constructors_need_mesh_witness :
  PhysicsRigidBody_fromShape bareNode SHAPE_BOX 1 0 0 0 0 = ([], Fault NullDereference).
Proof.
  apply (constructors_need_mesh bareNode SHAPE_BOX image2x2 1 1 1 0 0 0 0 eq_refl).
Defined.

Lemma create_without_type_witness :
  create (LA := decimalLoader) (terrainNode 1 1) (Some untypedBlock)
  = ([], Fault NullDereference).
Proof.
  apply (create_without_type (LA := decimalLoader) (terrainNode 1 1) untypedBlock
           (terrainMesh 1 1));
    try reflexivity.
  - apply no_unsupported. reflexivity.
  - vm_compute. discriminate.
Defined.

Lemma create_rejects_block_witness :
  create (terrainNode 1 1) (Some (mkProperties "physics" [])) = ([Warn WARN_NAMESPACE], Ok None).
Proof.
  apply (create_rejects_block (terrainNode 1 1) (mkProperties "physics" [])).
  discriminate.
Defined.

Lemma fromShape_mesh_witness :
  exists b,
    PhysicsRigidBody_fromShape (terrainNode 1 1) SHAPE_MESH 5 0 0 0 0
    = ([AddCollisionObject], Ok b) /\
    _shape b = Some TRIANGLE_MESH_SHAPE_PROXYTYPE.
Proof.
  eexists. split.
  - apply (fromShape_mesh (terrainNode 1 1) (terrainMesh 1 1) 5 0 0 0 0 eq_refl).
    reflexivity.
  - reflexivity.
Defined.


Lemma removeConstraint_first_witness :
  removeConstraint [3; 7; 5; 7] 7 = [3; 5; 7] /\ removeConstraint [3] 7 = [3].
Proof.
  apply (removeConstraint_first 7 [3] [5; 7]).
  intros Hin. apply list_elem_of_singleton in Hin. discriminate.
Defined.

Lemma removeConstraint_addConstraint_witness :
  removeConstraint (addConstraint [3; 5] 7) 7 = [3; 5].
Proof.
  apply (removeConstraint_addConstraint 7 [3; 5]).
  intros Hin. apply elem_of_cons in Hin. destruct Hin as [Hin | Hin]; [discriminate |].
  apply list_elem_of_singleton in Hin. discriminate.
Defined.

End FurtherExamples.
